(** * IIB build tasks: a shallow embedding of [iib/workers/tasks/build.py]

    The tasks of [build.py] talk to four collaborators: the IIB REST API
    ([get_request], [set_request_state], [update_request]), the operating
    system ([subprocess.run], temporary directories, files), the Celery
    broker ([apply_async]) and the clock ([time.sleep]).  Every call to one
    of them is an [event] of the trace; what the collaborator answers is
    chosen by an environment [Env] that sees the whole trace so far, so the
    theorems below hold for every behaviour of the collaborators.

    Architecture sets are Python sets of strings and are modelled by
    [gset string]; [sorted] is a merge sort for the code-point order of
    strings, which for a total antisymmetric order returns the same list as
    Python's sort.  Calls to [log.info] and [log.debug] have no effect on
    control flow and are left out of the trace; [log.error] is an event. *)

From Stdlib Require Import ZArith Ascii.
From stdpp Require Import base option list sorting gmap sets strings pretty.

Set Warnings "-clear-no-such-hyp".

Local Open Scope Z_scope.

(** ** Configuration ([iib.workers.config]) *)

(** A push template such as ["{registry}/iib-build:{request_id}-{arch}"],
    already cut into its literal pieces and replacement fields. *)
Inductive segment :=
  | Lit (s : string)
  | FieldRegistry
  | FieldRequestId
  | FieldArch.

Record Config := {
  iib_arch : string;
  iib_arches : gset string;
  iib_arch_image_push_template : list segment;
  iib_image_push_template : list segment;
  iib_poll_api_frequency : Z;
  iib_registry : string;
  iib_registry_credentials : string;
}.

(** ** Exceptions *)

Inductive exn :=
  | IIBError (msg : string)
  | KeyError (key : string)
  | ValueError (msg : string)
  | OSError (msg : string).

(** ** Values exchanged with the collaborators *)

(** [subprocess.CompletedProcess], with the text of both pipes. *)
Record response := {
  returncode : Z;
  stdout : string;
  stderr : string;
}.

(** The fields of a request, as returned by the API, that the tasks read. *)
Record Request := {
  state : string;
  arches : list string;
}.

(** Values of the payload dictionaries sent to [update_request]. *)
Inductive pvalue :=
  | PStr (s : string)
  | PList (l : list string).

Definition payload := list (string * pvalue).

(** The output of [skopeo inspect] once parsed; a field is [None] when the
    key is absent from the JSON object. *)
Record manifest_json := {
  platform_architecture : string;
}.

Record inspect_json := {
  Name : option string;
  Digest : option string;
  mediaType : option string;
  manifests : option (list manifest_json);
}.

(** ** Events *)

Inductive event :=
  | EvSetRequestState (request_id : Z) (st reason : string) (r : option exn)
  | EvGetRequest (request_id : Z) (r : exn + Request)
  | EvUpdateRequest (request_id : Z) (p : payload) (exc_msg : string)
      (r : option exn)
  | EvSleep (seconds : Z)
  | EvRun (cmd : list string) (cwd : option string) (r : response)
  | EvLogError (text : string)
  | EvApplyAsync (bundles : list string) (binary_image : string)
      (request_id : Z) (from_index : option string)
      (queue routing_key : string)
  | EvMkdtemp (dir : string)
  | EvRmtree (dir : string)
  | EvWriteFile (path content : string)
  | EvFixOpmPath (dockerfile_path : string) (r : option exn).

(** The collaborators: each answer may depend on everything that happened
    before the call.  The API calls may raise; [subprocess.run] always
    returns a completed process (the executables exist), [apply_async]
    always enqueues, and [json.loads] is a function of the text alone.
    Temporary directories are absolute paths without a trailing slash, so
    that [os.path.join] and [os.path.abspath] append ["/name"]. *)
Record Env := {
  api_get_request : list event -> Z -> exn + Request;
  api_set_request_state : list event -> Z -> string -> string -> option exn;
  api_update_request : list event -> Z -> payload -> string -> option exn;
  os_subprocess_run : list event -> list string -> option string -> response;
  os_mkdtemp : list event -> string;
  os_rewrite_file : list event -> string -> option exn;
  json_loads : string -> option inspect_json;
}.

(** ** The monad of tasks *)

Inductive outcome (A : Type) :=
  | Done (a : A)
  | Raised (e : exn)
  | OutOfFuel.
Arguments Done {A} a.
Arguments Raised {A} e.
Arguments OutOfFuel {A}.

(** A task reads the trace so far and returns its outcome together with the
    events it emitted itself. *)
Definition task (A : Type) := list event -> outcome A * list event.

Definition ret {A} (a : A) : task A := fun _ => (Done a, []).

Definition raise {A} (e : exn) : task A := fun _ => (Raised e, []).

Definition out_of_fuel {A} : task A := fun _ => (OutOfFuel, []).

Definition bind {A B} (m : task A) (f : A -> task B) : task B :=
  fun h =>
    match m h with
    | (Done a, t) => let '(o, t') := f a (h ++ t) in (o, t ++ t')
    | (Raised e, t) => (Raised e, t)
    | (OutOfFuel, t) => (OutOfFuel, t)
    end.

(** [try: m finally: e]: the event is emitted whether [m] returns or raises. *)
Definition finally {A} (m : task A) (cleanup : event) : task A :=
  fun h =>
    match m h with
    | (OutOfFuel, t) => (OutOfFuel, t)
    | (o, t) => (o, t ++ [cleanup])
    end.

Definition emit (e : event) : task unit := fun _ => (Done tt, [e]).

(** The run [r] seen from a point where [t] had been emitted before it. *)
Definition extend {A} (t : list event) (r : outcome A * list event)
    : outcome A * list event :=
  (fst r, t ++ snd r).

Declare Scope task_scope.
Delimit Scope task_scope with task.
Notation "x <- m ;; k" := (bind m (fun x => k))
  (at level 100, m at next level, right associativity) : task_scope.
Notation "m ;; k" := (bind m (fun _ => k))
  (at level 100, right associativity) : task_scope.
Local Open Scope task_scope.

(** ** Python helpers *)

(** [sep.join(l)] *)
Definition join (sep : string) (l : list string) : string :=
  String.concat sep l.

(** [sorted(s)] for a set of strings. *)
Definition sorted_list (l : list string) : list string :=
  merge_sort String.le l.

Definition sorted (s : gset string) : list string :=
  sorted_list (elements s).

(** [s.split(':', 1)]: [None] when there is no colon, and the unpacking
    into two names fails. *)
Fixpoint split_colon (s : string) : option (string * string) :=
  match s with
  | EmptyString => None
  | String c rest =>
      if Ascii.eqb c ":"%char then Some (EmptyString, rest)
      else match split_colon rest with
           | Some (u, p) => Some (String c u, p)
           | None => None
           end
  end.

(** [x or default] on strings: the empty string is falsy. *)
Definition str_or (x : option string) (default : string) : string :=
  match x with
  | Some (String c s) => String c s
  | _ => default
  end.

(** Truthiness of an optional string: [None] and [''] are falsy. *)
Definition truthy (x : option string) : option string :=
  match x with
  | Some (String c s) => Some (String c s)
  | _ => None
  end.

(** [template.format(registry=..., request_id=..., [arch=...])]; a field
    without a keyword argument raises [KeyError]. *)
Fixpoint format (t : list segment) (registry : string) (request_id : Z)
    (arch : option string) : exn + string :=
  match t with
  | [] => inr EmptyString
  | seg :: t' =>
      match format t' registry request_id arch with
      | inl e => inl e
      | inr rest =>
          match seg with
          | Lit s => inr (s +:+ rest)
          | FieldRegistry => inr (registry +:+ rest)
          | FieldRequestId => inr (pretty request_id +:+ rest)
          | FieldArch =>
              match arch with
              | Some a => inr (a +:+ rest)
              | None => inl (KeyError "arch")
              end
          end
      end
  end.

Definition lift {A} (r : exn + A) : task A :=
  match r with
  | inl e => raise e
  | inr a => ret a
  end.

(** [d[key]] on a parsed JSON object. *)
Definition getitem {A} (key : string) (field : option A) : task A :=
  match field with
  | Some v => ret v
  | None => raise (KeyError key)
  end.

(** ** The tasks *)

Section Tasks.

Variable conf : Config.
Variable env : Env.

(** *** Calls to the collaborators *)

Definition get_request (request_id : Z) : task Request :=
  fun h =>
    let r := api_get_request env h request_id in
    (match r with inl e => Raised e | inr q => Done q end,
     [EvGetRequest request_id r]).

Definition set_request_state (request_id : Z) (st reason : string)
    : task unit :=
  fun h =>
    let r := api_set_request_state env h request_id st reason in
    (match r with Some e => Raised e | None => Done tt end,
     [EvSetRequestState request_id st reason r]).

Definition update_request (request_id : Z) (p : payload) (exc_msg : string)
    : task unit :=
  fun h =>
    let r := api_update_request env h request_id p exc_msg in
    (match r with Some e => Raised e | None => Done tt end,
     [EvUpdateRequest request_id p exc_msg r]).

Definition subprocess_run (cmd : list string) (cwd : option string)
    : task response :=
  fun h =>
    let r := os_subprocess_run env h cmd cwd in (Done r, [EvRun cmd cwd r]).

Definition sleep (seconds : Z) : task unit := emit (EvSleep seconds).

Definition log_error (text : string) : task unit := emit (EvLogError text).

(** [with tempfile.TemporaryDirectory(prefix='iib-') as temp_dir: body] *)
Definition with_temporary_directory {A} (body : string -> task A) : task A :=
  fun h =>
    let dir := os_mkdtemp env h in
    let '(o, t) := finally (body dir) (EvRmtree dir) (h ++ [EvMkdtemp dir]) in
    (o, EvMkdtemp dir :: t).

(** *** [_run_cmd] *)

Definition redaction_marker : string := "********".

(** The loop [for i, arg in enumerate(cmd)] over a copy of [cmd]. *)
Definition sanitize (credentials password : string) (cmd : list string)
    : list string :=
  map (fun arg =>
         if bool_decide (arg = credentials) || bool_decide (arg = password)
         then redaction_marker else arg) cmd.

(** The double quote character. *)
Definition dq : string := String "034"%char EmptyString.

(** ['The command "%s" failed with: %s'] *)
Definition failure_log_text (sanitized_cmd : list string) (err : string)
    : string :=
  "The command " +:+ dq +:+ join " " sanitized_cmd +:+ dq +:+
  " failed with: " +:+ err.

Definition _run_cmd (cmd : list string) (cwd : option string)
    (exc_msg : option string) : task string :=
  response <- subprocess_run cmd cwd ;;
  if bool_decide (returncode response ≠ 0) then
    match split_colon (iib_registry_credentials conf) with
    | None => raise (ValueError "not enough values to unpack (expected 2, got 1)")
    | Some (_, password) =>
        let sanitized_cmd :=
          sanitize (iib_registry_credentials conf) password cmd in
        log_error (failure_log_text sanitized_cmd (stderr response)) ;;
        raise (IIBError (str_or exc_msg "An unexpected error occurred"))
    end
  else ret (stdout response).

(** *** Small helpers *)

Definition _get_arch : string := iib_arch conf.

Definition _get_local_pull_spec (request_id : Z) : string :=
  "operator-registry-index:" +:+ pretty request_id.

Definition _get_external_arch_pull_spec (request_id : Z)
    (arch : option string) (include_transport : bool) : task string :=
  pull_spec <- lift (format (iib_arch_image_push_template conf)
                       (iib_registry conf) request_id
                       (Some (str_or arch (iib_arch conf)))) ;;
  if include_transport then ret ("docker://" +:+ pull_spec)
  else ret pull_spec.

Definition _cleanup : task unit :=
  _run_cmd ["podman"; "rmi"; "--all"; "--force"] None
    (Some "Failed to remove the existing container images") ;;
  ret tt.

Definition _build_image (dockerfile_dir : string) (request_id : Z)
    : task unit :=
  let destination := _get_local_pull_spec request_id in
  let dockerfile_path := dockerfile_dir +:+ "/index.Dockerfile" in
  _run_cmd ["podman"; "build"; "-f"; dockerfile_path; "-t"; destination; "."]
    (Some dockerfile_dir)
    (Some ("Failed to build the index image on the arch " +:+ _get_arch)) ;;
  ret tt.

Definition _fix_opm_path (dockerfile_dir : string) : task unit :=
  fun h =>
    let dockerfile_path := dockerfile_dir +:+ "/index.Dockerfile" in
    let r := os_rewrite_file env h dockerfile_path in
    (match r with Some e => Raised e | None => Done tt end,
     [EvFixOpmPath dockerfile_path r]).

Definition _push_arch_image (request_id : Z) : task unit :=
  let source := _get_local_pull_spec request_id in
  destination <- _get_external_arch_pull_spec request_id None true ;;
  _run_cmd ["podman"; "push"; "-q"; source; destination; "--creds";
            iib_registry_credentials conf] None
    (Some ("Failed to push the index image to " +:+ destination +:+
           " on the arch " +:+ _get_arch)) ;;
  ret tt.

(** *** Image inspection *)

(** The first argument that starts with [docker://] names the image in the
    error message. *)
Fixpoint inspect_exc_msg (args : list string) : option string :=
  match args with
  | [] => None
  | arg :: args' =>
      if String.prefix "docker://" arg
      then Some ("Failed to inspect " +:+ arg +:+
                 ". Make sure it exists and is accessible to IIB.")
      else inspect_exc_msg args'
  end.

Definition _skopeo_inspect (args : list string) (use_creds : bool)
    : task inspect_json :=
  let exc_msg := inspect_exc_msg args in
  let cmd := ["skopeo"; "inspect"] ++ args in
  let cmd := if use_creds
             then cmd ++ ["--creds"; iib_registry_credentials conf]
             else cmd in
  out <- _run_cmd cmd None exc_msg ;;
  match json_loads env out with
  | Some j => ret j
  | None => raise (ValueError "Expecting value")
  end.

Definition manifest_list_v2 : string :=
  "application/vnd.docker.distribution.manifest.list.v2+json".

Definition _get_image_arches (pull_spec : string) : task (gset string) :=
  skopeo_raw <- _skopeo_inspect ["docker://" +:+ pull_spec; "--raw"] false ;;
  media <- getitem "mediaType" (mediaType skopeo_raw) ;;
  if bool_decide (media ≠ manifest_list_v2) then
    raise (IIBError ("The pull specification of " +:+ pull_spec +:+
                     " is not a v2 manifest list"))
  else
    ms <- getitem "manifests" (manifests skopeo_raw) ;;
    ret (fold_left (fun (arches : gset string) manifest =>
                      arches ∪ {[ platform_architecture manifest ]}) ms ∅).

Definition _get_resolved_image (pull_spec : string) : task string :=
  skopeo_output <- _skopeo_inspect ["docker://" +:+ pull_spec] false ;;
  name <- getitem "Name" (Name skopeo_output) ;;
  digest <- getitem "Digest" (Digest skopeo_output) ;;
  ret (name +:+ "@" +:+ digest).

(** *** [_prepare_request_for_build] *)

Record prebuild_info := {
  pi_arches : gset string;
  pi_binary_image_resolved : string;
  pi_from_index_resolved : option string;
}.

Definition no_arches_msg : string :=
  "No arches were provided to build the index image".

Definition binary_arch_msg (unsupported : gset string) : string :=
  "The binary image is not available for the following arches: " +:+
  join ", " (sorted unsupported).

Definition global_arch_msg (unsupported : gset string) : string :=
  "Building for the following requested arches is not supported: " +:+
  join "," (sorted unsupported).

Definition _prepare_request_for_build (binary_image : string)
    (request_id : Z) (from_index : option string)
    (add_arches : option (list string)) : task prebuild_info :=
  set_request_state request_id "in_progress" "Resolving the images" ;;
  let arches : gset string :=
    match add_arches with
    | Some (a :: l) => list_to_set (a :: l)
    | _ => ∅
    end in
  binary_image_resolved <- _get_resolved_image binary_image ;;
  binary_image_arches <- _get_image_arches binary_image_resolved ;;
  merged <-
    match truthy from_index with
    | Some from_index =>
        from_index_resolved <- _get_resolved_image from_index ;;
        from_index_arches <- _get_image_arches from_index_resolved ;;
        ret (arches ∪ from_index_arches, Some from_index_resolved)
    | None => ret (arches, None)
    end ;;
  let '(arches, from_index_resolved) := merged in
  if bool_decide (arches = ∅) then raise (IIBError no_arches_msg)
  else
    let arches_str := join ", " (sorted arches) in
    if bool_decide (¬ arches ⊆ binary_image_arches) then
      raise (IIBError (binary_arch_msg (arches ∖ binary_image_arches)))
    else if bool_decide (¬ arches ⊆ iib_arches conf) then
      raise (IIBError (global_arch_msg (arches ∖ iib_arches conf)))
    else
      let p : payload :=
        [("binary_image_resolved", PStr binary_image_resolved);
         ("state", PStr "in_progress");
         ("state_reason",
          PStr ("Scheduling index image builds for the following arches: "
                +:+ arches_str))] in
      let p := match truthy from_index_resolved with
               | Some r => p ++ [("from_index_resolved", PStr r)]
               | None => p
               end in
      update_request request_id p
        "Failed setting the resolved images on the request" ;;
      ret {| pi_arches := arches;
             pi_binary_image_resolved := binary_image_resolved;
             pi_from_index_resolved := from_index_resolved |}.

(** *** [_poll_request] *)

(** The [while True] loop; [fuel] bounds the number of iterations the model
    follows, and [OutOfFuel] stands for a loop that is still running. *)
Fixpoint _poll_request_loop (fuel : nat) (request_id : Z)
    (arches_remaining : gset string) : task bool :=
  match fuel with
  | O => out_of_fuel
  | S fuel' =>
      sleep (iib_poll_api_frequency conf) ;;
      request <- get_request request_id ;;
      if bool_decide (state request ≠ "in_progress") then ret false
      else
        let arches_remaining :=
          arches_remaining ∖ list_to_set (arches request) in
        if bool_decide (arches_remaining = ∅) then ret true
        else _poll_request_loop fuel' request_id arches_remaining
  end.

Definition _poll_request (fuel : nat) (request_id : Z)
    (arches : gset string) : task bool :=
  let arches_remaining := arches in
  _poll_request_loop fuel request_id arches_remaining.

(** *** [_create_and_push_manifest_list] *)

Definition nl : string := String "010"%char EmptyString.

(** The two dedented blocks written to [manifest.yaml]. *)
Definition manifest_header (output_pull_spec : string) : string :=
  "image: " +:+ output_pull_spec +:+ nl +:+
  "manifests:" +:+ nl.

Definition manifest_item (arch_pull_spec arch : string) : string :=
  "- image: " +:+ arch_pull_spec +:+ nl +:+
  "  platform:" +:+ nl +:+
  "    architecture: " +:+ arch +:+ nl +:+
  "    os: linux" +:+ nl.

(** [for x in l: acc += f(x)] *)
Fixpoint for_each (l : list string) (f : string -> task string)
    (acc : string) : task string :=
  match l with
  | [] => ret acc
  | x :: l' => s <- f x ;; for_each l' f (acc +:+ s)
  end.

Definition _create_and_push_manifest_list (request_id : Z)
    (arches : gset string) : task string :=
  output_pull_spec <- lift (format (iib_image_push_template conf)
                              (iib_registry conf) request_id None) ;;
  with_temporary_directory (fun temp_dir =>
    let manifest_yaml := temp_dir +:+ "/manifest.yaml" in
    content <- for_each (sorted arches) (fun arch =>
                 arch_pull_spec <-
                   _get_external_arch_pull_spec request_id (Some arch) false ;;
                 ret (manifest_item arch_pull_spec arch))
               (manifest_header output_pull_spec) ;;
    emit (EvWriteFile manifest_yaml content) ;;
    match split_colon (iib_registry_credentials conf) with
    | None =>
        raise (ValueError "not enough values to unpack (expected 2, got 1)")
    | Some (username, password) =>
        _run_cmd ["manifest-tool"; "--username"; username; "--password";
                  password; "push"; "from-spec"; manifest_yaml] None
          (Some ("Failed to push the manifest list to " +:+ output_pull_spec))
    end) ;;
  ret output_pull_spec.

Definition _finish_request_post_build (request_id : Z)
    (arches : gset string) : task unit :=
  set_request_state request_id "in_progress" "Creating the manifest list" ;;
  output_pull_spec <- _create_and_push_manifest_list request_id arches ;;
  let p : payload :=
    [("index_image", PStr output_pull_spec);
     ("state", PStr "complete");
     ("state_reason", PStr "The request completed successfully")] in
  update_request request_id p "Failed setting the index image on the request".

(** *** [handle_add_request] *)

(** [opm_index_add.apply_async(...)] for every architecture, in order. *)
Fixpoint dispatch (bundles : list string) (info : prebuild_info)
    (request_id : Z) (l : list string) : task unit :=
  match l with
  | [] => ret tt
  | arch :: l' =>
      emit (EvApplyAsync bundles (pi_binary_image_resolved info) request_id
              (pi_from_index_resolved info)
              ("iib_" +:+ arch) ("iib_" +:+ arch)) ;;
      dispatch bundles info request_id l'
  end.

Definition handle_add_request (fuel : nat) (bundles : list string)
    (binary_image : string) (request_id : Z) (from_index : option string)
    (add_arches : option (list string)) : task unit :=
  prebuild_info <-
    _prepare_request_for_build binary_image request_id from_index add_arches ;;
  let arches := pi_arches prebuild_info in
  dispatch bundles prebuild_info request_id (sorted arches) ;;
  polled <- _poll_request fuel request_id arches ;;
  if negb polled then
    log_error
      "Not finishing the request since one of the underlying builds failed"
  else _finish_request_post_build request_id arches.

(** *** [opm_index_add] *)

Definition already_failed_reason : string :=
  "Not building for the arch " +:+ _get_arch +:+
  " since the request has already failed".

Definition opm_index_add (bundles : list string) (binary_image : string)
    (request_id : Z) (from_index : option string) : task unit :=
  request <- get_request request_id ;;
  if bool_decide (state request = "failed") then
    set_request_state request_id "failed" already_failed_reason
  else
    _cleanup ;;
    with_temporary_directory (fun temp_dir =>
      let cmd := ["opm"; "index"; "add"; "--generate"; "--bundles";
                  join "," bundles; "--binary-image"; binary_image] in
      let cmd := match truthy from_index with
                 | Some from_index => cmd ++ ["--from-index"; from_index]
                 | None => cmd
                 end in
      _run_cmd cmd (Some temp_dir)
        (Some ("Failed to add the bundles to the index image on the arch "
               +:+ _get_arch)) ;;
      _fix_opm_path temp_dir ;;
      _build_image temp_dir request_id) ;;
    _push_arch_image request_id ;;
    update_request request_id [("arches", PList [_get_arch])]
      ("Failed adding the arch " +:+ _get_arch).

End Tasks.

(** ** A concrete deployment, used to run the tasks *)

Module Scenario.

Definition conf : Config := {|
  iib_arch := "amd64";
  iib_arches := {[ "amd64"; "ppc64le"; "s390x" ]};
  iib_arch_image_push_template :=
    [FieldRegistry; Lit "/iib-build:"; FieldRequestId; Lit "-"; FieldArch];
  iib_image_push_template :=
    [FieldRegistry; Lit "/iib-build:"; FieldRequestId];
  iib_poll_api_frequency := 5;
  iib_registry := "registry.example.com";
  iib_registry_credentials := "iib:s3cret";
|}.

Definition list_v2 (l : list string) : inspect_json := {|
  Name := None; Digest := None;
  mediaType := Some manifest_list_v2;
  manifests := Some (map Build_manifest_json l);
|}.

Definition resolved (name digest : string) : inspect_json := {|
  Name := Some name; Digest := Some digest;
  mediaType := None; manifests := None;
|}.

(** The registry: what [skopeo inspect] prints, keyed by its arguments. *)
Definition registry : list (string * inspect_json) :=
  [("docker://quay.io/opm:v1", resolved "quay.io/opm" "sha256:b1");
   ("docker://quay.io/opm@sha256:b1 --raw",
    list_v2 ["amd64"; "s390x"; "ppc64le"]);
   ("docker://quay.io/index:v4", resolved "quay.io/index" "sha256:f4");
   ("docker://quay.io/index@sha256:f4 --raw", list_v2 ["amd64"; "arm64"]);
   ("docker://quay.io/opm-all:v1", resolved "quay.io/opm-all" "sha256:a1");
   ("docker://quay.io/opm-all@sha256:a1 --raw",
    list_v2 ["amd64"; "arm64"; "s390x"; "ppc64le"]);
   ("docker://quay.io/single:v1", resolved "quay.io/single" "sha256:51");
   ("docker://quay.io/single@sha256:51 --raw",
    {| Name := None; Digest := None;
       mediaType := Some "application/vnd.docker.distribution.manifest.v2+json";
       manifests := None |})].

Fixpoint assoc {A} (k : string) (l : list (string * A)) : option A :=
  match l with
  | [] => None
  | (k', v) :: l' => if String.eqb k k' then Some v else assoc k l'
  end.

Fixpoint count_gets (h : list event) : nat :=
  match h with
  | [] => O
  | EvGetRequest _ _ :: h' => S (count_gets h')
  | _ :: h' => count_gets h'
  end.

(** Every command succeeds and prints its own arguments; the API answers
    the [n]-th [get_request] with the [n]-th record of [script] and keeps
    answering with [final] afterwards. *)
Definition env (script : list Request) (final : Request) : Env := {|
  api_get_request h _ := inr (nth (count_gets h) script final);
  api_set_request_state _ _ _ _ := None;
  api_update_request _ _ _ _ := None;
  os_subprocess_run _ cmd _ :=
    {| returncode := 0; stdout := join " " (drop 2 cmd); stderr := "" |};
  os_mkdtemp _ := "/tmp/iib-x";
  os_rewrite_file _ _ := None;
  json_loads out := assoc out registry;
|}.

(** The same deployment with a registry that refuses every command. *)
Definition failing_env (err : string) : Env := {|
  api_get_request _ _ := inr {| state := "in_progress"; arches := [] |};
  api_set_request_state _ _ _ _ := None;
  api_update_request _ _ _ _ := None;
  os_subprocess_run _ _ _ := {| returncode := 1; stdout := ""; stderr := err |};
  os_mkdtemp _ := "/tmp/iib-x";
  os_rewrite_file _ _ := None;
  json_loads _ := None;
|}.

Definition in_progress (l : list string) : Request :=
  {| state := "in_progress"; arches := l |}.

Definition failed : Request := {| state := "failed"; arches := [] |}.

Definition complete : Request :=
  {| state := "complete"; arches := ["amd64"] |}.

(** The API keeps answering with one record. *)
Definition steady_env (r : Request) : Env := env [] r.

(** The events of the resolution of the images of request 7. *)
Definition ran (cmd : list string) : event :=
  EvRun cmd None
    {| returncode := 0; stdout := join " " (drop 2 cmd); stderr := "" |}.

Definition opened : event :=
  EvSetRequestState 7 "in_progress" "Resolving the images" None.

Definition resolve_opm : list event :=
  [ran ["skopeo"; "inspect"; "docker://quay.io/opm:v1"]].

Definition inspect_opm : list event :=
  [ran ["skopeo"; "inspect"; "docker://quay.io/opm@sha256:b1"; "--raw"]].

Definition resolve_index : list event :=
  [ran ["skopeo"; "inspect"; "docker://quay.io/index:v4"]].

Definition inspect_index : list event :=
  [ran ["skopeo"; "inspect"; "docker://quay.io/index@sha256:f4"; "--raw"]].

(** A registry of images whose raw manifest has no [mediaType] key, as
    the schema 1 manifests do. *)
Definition legacy_env : Env := {|
  api_get_request _ _ := inr {| state := "in_progress"; arches := [] |};
  api_set_request_state _ _ _ _ := None;
  api_update_request _ _ _ _ := None;
  os_subprocess_run _ cmd _ :=
    {| returncode := 0; stdout := join " " (drop 2 cmd); stderr := "" |};
  os_mkdtemp _ := "/tmp/iib-x";
  os_rewrite_file _ _ := None;
  json_loads _ := Some (resolved "quay.io/legacy" "sha256:01");
|}.

(** The API is down: every call to it raises. *)
Definition down_env : Env := {|
  api_get_request _ _ := inl (IIBError "API is down");
  api_set_request_state _ _ _ _ := Some (IIBError "API is down");
  api_update_request _ _ _ _ := Some (IIBError "API is down");
  os_subprocess_run _ cmd _ :=
    {| returncode := 0; stdout := join " " (drop 2 cmd); stderr := "" |};
  os_mkdtemp _ := "/tmp/iib-x";
  os_rewrite_file _ _ := None;
  json_loads out := assoc out registry;
|}.

(** What the preparation of request 7 returns for [amd64] and [s390x], and
    its last event. *)
Definition prepared : prebuild_info := {|
  pi_arches := list_to_set ["amd64"; "s390x"];
  pi_binary_image_resolved := "quay.io/opm@sha256:b1";
  pi_from_index_resolved := None;
|}.

Definition scheduled : event :=
  EvUpdateRequest 7
    [("binary_image_resolved", PStr "quay.io/opm@sha256:b1");
     ("state", PStr "in_progress");
     ("state_reason",
      PStr "Scheduling index image builds for the following arches: amd64, s390x")]
    "Failed setting the resolved images on the request" None.

(** The same configuration with credentials that lack the colon. *)
Definition conf_without_colon : Config := {|
  iib_arch := "amd64";
  iib_arches := {[ "amd64"; "ppc64le"; "s390x" ]};
  iib_arch_image_push_template :=
    [FieldRegistry; Lit "/iib-build:"; FieldRequestId; Lit "-"; FieldArch];
  iib_image_push_template :=
    [FieldRegistry; Lit "/iib-build:"; FieldRequestId];
  iib_poll_api_frequency := 5;
  iib_registry := "registry.example.com";
  iib_registry_credentials := "iib-s3cret";
|}.

(** The same configuration with a manifest list template that asks for an
    architecture. *)
Definition conf_arch_in_list_template : Config := {|
  iib_arch := "amd64";
  iib_arches := {[ "amd64"; "ppc64le"; "s390x" ]};
  iib_arch_image_push_template :=
    [FieldRegistry; Lit "/iib-build:"; FieldRequestId; Lit "-"; FieldArch];
  iib_image_push_template :=
    [FieldRegistry; Lit "/iib-build:"; FieldRequestId; Lit "-"; FieldArch];
  iib_poll_api_frequency := 5;
  iib_registry := "registry.example.com";
  iib_registry_credentials := "iib:s3cret";
|}.

End Scenario.

(** ** Properties of the trace *)

(** [occurs needle hay]: Python's [needle in hay]. *)
Fixpoint occurs (needle hay : string) : bool :=
  String.prefix needle hay ||
  match hay with
  | EmptyString => false
  | String _ hay' => occurs needle hay'
  end.

(** A run of [manifest-tool]: the push of a manifest list. *)
Definition is_push (e : event) : bool :=
  match e with
  | EvRun ("manifest-tool" :: _) _ _ => true
  | _ => false
  end.

Fixpoint pushes (t : list event) : nat :=
  match t with
  | [] => O
  | e :: t' => ((if is_push e then 1 else 0) + pushes t')%nat
  end.

(** The request records that the trace shows as read from the API. *)
Fixpoint polled (t : list event) : list Request :=
  match t with
  | [] => []
  | EvGetRequest _ (inr r) :: t' => r :: polled t'
  | _ :: t' => polled t'
  end.

(** All architectures reported done by some record of the list. *)
Definition seen (l : list Request) : gset string :=
  ⋃ (map (fun r => list_to_set (arches r)) l).

(** [arches_done] is append-only: a later record holds every architecture
    of an earlier one. *)
Definition append_only (l : list Request) : Prop :=
  ∀ i j r r', (i ≤ j)%nat → l !! i = Some r → l !! j = Some r' →
    list_to_set (arches r) ⊆@{gset string} list_to_set (arches r').

(** The events of [n] iterations of the polling loop. *)
Definition poll_events (freq : Z) (request_id : Z)
    (obs : list (exn + Request)) : list event :=
  obs ≫= (fun r => [EvSleep freq; EvGetRequest request_id r]).

(** The manifest descriptor as a value. *)
Record manifest_entry := {
  entry_image : string;
  entry_architecture : string;
  entry_os : string;
}.

Record manifest_descriptor := {
  descriptor_image : string;
  descriptor_manifests : list manifest_entry;
}.

Definition render_entry (e : manifest_entry) : string :=
  "- image: " +:+ entry_image e +:+ nl +:+
  "  platform:" +:+ nl +:+
  "    architecture: " +:+ entry_architecture e +:+ nl +:+
  "    os: " +:+ entry_os e +:+ nl.

Definition render (d : manifest_descriptor) : string :=
  fold_left (fun acc e => acc +:+ render_entry e) (descriptor_manifests d)
    ("image: " +:+ descriptor_image d +:+ nl +:+ "manifests:" +:+ nl).

(** The optional part of the preparation: [from_index] is falsy and adds
    nothing, or its resolution and the inspection of its architectures
    return [found] after emitting [t]. *)
Definition from_index_resolves (conf : Config) (env : Env)
    (from_index : option string) (h : list event) (found : gset string)
    (from_index_resolved : option string) (t : list event) : Prop :=
  match truthy from_index with
  | None => found = ∅ ∧ from_index_resolved = None ∧ t = []
  | Some from_index =>
      ∃ r t1 t2,
        _get_resolved_image conf env from_index h = (Done r, t1)
        ∧ _get_image_arches conf env r (h ++ t1) = (Done found, t2)
        ∧ from_index_resolved = Some r ∧ t = t1 ++ t2
  end.

(** [emits P m]: every event that [m] emits satisfies [P]. *)
Definition emits {A} (P : event → Prop) (m : task A) : Prop :=
  ∀ h, Forall P (snd (m h)).

(** An event that is not a read of the request. *)
Definition not_read (e : event) : Prop :=
  match e with
  | EvGetRequest _ _ => False
  | _ => True
  end.

(** An event that neither reads the request nor pushes a manifest list. *)
Definition quiet (e : event) : Prop := not_read e ∧ is_push e = false.

Definition in_progress (r : Request) : Prop := state r = "in_progress".

(** What a run of the polling loop guarantees: the shape of its trace and
    the meaning of its result. *)
Record poll_post (freq : Z) (fuel : nat) (request_id : Z)
    (remaining : gset string) (o : outcome bool) (t : list event) : Prop := {
  post_shape : ∃ obs, t = poll_events freq request_id obs
                      ∧ (length obs ≤ fuel)%nat
                      ∧ (o = OutOfFuel → length obs = fuel);
  post_true : o = Done true →
              polled t ≠ [] ∧ Forall in_progress (polled t)
              ∧ remaining ⊆ seen (polled t);
  post_false : o = Done false →
               ∃ r, last (polled t) = Some r ∧ state r ≠ "in_progress";
  post_left : ∀ r, r ∈ polled t → state r ≠ "in_progress" → o = Done false;
  post_covered : polled t ≠ [] → Forall in_progress (polled t) →
                 remaining ⊆ seen (polled t) → o = Done true;
}.

(** The pull specification that [_get_external_arch_pull_spec] returns for
    an architecture of the list. *)
Definition external_arch_pull_spec (conf : Config) (request_id : Z)
    (arch : string) : string :=
  match format (iib_arch_image_push_template conf) (iib_registry conf)
          request_id (Some (str_or (Some arch) (iib_arch conf))) with
  | inr s => s
  | inl _ => EmptyString
  end.

Definition manifest_list_descriptor (conf : Config) (request_id : Z)
    (output_pull_spec : string) (arches : gset string)
    : manifest_descriptor :=
  {| descriptor_image := output_pull_spec;
     descriptor_manifests :=
       map (fun arch =>
              {| entry_image := external_arch_pull_spec conf request_id arch;
                 entry_architecture := arch;
                 entry_os := "linux" |}) (sorted arches) |}.

(** The reading of "credentials never appear in a logged error text": no
    [log.error] of a run of [_run_cmd] contains the credentials or the
    password. *)
Definition never_logs_credentials (conf : Config) (env : Env) : Prop :=
  ∀ cmd cwd exc_msg h text user password,
    split_colon (iib_registry_credentials conf) = Some (user, password) →
    EvLogError text ∈ snd (_run_cmd conf env cmd cwd exc_msg h) →
    occurs (iib_registry_credentials conf) text = false ∧
    occurs password text = false.

(** *** Further observations of a trace *)

(** The jobs handed to the broker, in order. *)
Fixpoint dispatched (t : list event) : list event :=
  match t with
  | [] => []
  | EvApplyAsync b i r f q k :: t' => EvApplyAsync b i r f q k :: dispatched t'
  | _ :: t' => dispatched t'
  end.

(** The temporary directories created, and those removed, in order. *)
Fixpoint created (t : list event) : list string :=
  match t with
  | [] => []
  | EvMkdtemp dir :: t' => dir :: created t'
  | _ :: t' => created t'
  end.

Fixpoint removed (t : list event) : list string :=
  match t with
  | [] => []
  | EvRmtree dir :: t' => dir :: removed t'
  | _ :: t' => removed t'
  end.

(** An update of the request that sets the state [complete]. *)
Definition marks_complete (e : event) : Prop :=
  match e with
  | EvUpdateRequest _ p _ _ => ("state", PStr "complete") ∈ p
  | _ => False
  end.

(** A call to [update_request]. *)
Definition is_update (e : event) : Prop :=
  match e with
  | EvUpdateRequest _ _ _ _ => True
  | _ => False
  end.

(** A command, if the event is one, that exited with the code 0. *)
Definition succeeded (e : event) : Prop :=
  match e with
  | EvRun _ _ r => returncode r = 0
  | _ => True
  end.

(** A run of [skopeo inspect], or an event that is no command at all. *)
Definition only_inspects (e : event) : Prop :=
  match e with
  | EvRun cmd _ _ => ∃ args, cmd = "skopeo" :: "inspect" :: args
  | EvApplyAsync _ _ _ _ _ _ | EvMkdtemp _ | EvRmtree _ | EvWriteFile _ _
  | EvFixOpmPath _ _ | EvSleep _ | EvGetRequest _ _ => False
  | _ => True
  end.

(** [line.replace(old, new)] for a non-empty [old]: the occurrences of
    [old] are replaced from left to right, without overlap; [skip] counts
    the characters of an occurrence still to be dropped. *)
Fixpoint replace_from (skip : nat) (old new s : string) : string :=
  match s with
  | EmptyString => EmptyString
  | String c s' =>
      match skip with
      | S k => replace_from k old new s'
      | O =>
          if String.prefix old s
          then new +:+ replace_from (String.length old - 1) old new s'
          else String c (replace_from O old new s')
      end
  end.

(** What the loop of [_fix_opm_path] prints for a line of the Dockerfile. *)
Definition fix_opm_line (line : string) : string :=
  replace_from O "/build/bin/opm" "/bin/opm" line.

(** Runs a task whose calls to the collaborators have been resolved. *)
Ltac run_task :=
  unfold bind, ret, raise, lift, getitem; simpl; rewrite ?app_nil_r.

(** Case analysis on the position of an event in a trace. *)
Ltac split_updates H :=
  repeat match type of H with
         | Exists _ (_ :: _) => apply Exists_cons in H as [H|H]
         | Exists _ [] => by apply Exists_nil in H
         | is_update _ => by destruct H
         end.

Ltac split_exists H :=
  repeat match type of H with
         | Exists _ (_ ++ _) => apply Exists_app in H as [H|H]
         | Exists _ (_ :: _) => apply Exists_cons in H as [H|H]
         | Exists _ [] => by apply Exists_nil in H
         | marks_complete _ => by destruct H
         end.

(** Turns the tests of the exit codes into equations. *)
Ltac exit_codes :=
  repeat match goal with
         | H : bool_decide (_ ≠ _) = false |- _ =>
             apply bool_decide_eq_false, dec_stable in H
         end.

(** ** Laws of the task monad *)

Section Monad.

Context {A B : Type}.
Implicit Types (m : task A) (f : A → task B) (h t : list event).

Lemma bind_Done m f h a t :
  m h = (Done a, t) →
  bind m f h = (fst (f a (h ++ t)), t ++ snd (f a (h ++ t))).
Proof. intros E. unfold bind. rewrite E. by destruct (f a (h ++ t)). Qed.

Lemma bind_Raised m f h e t :
  m h = (Raised e, t) → bind m f h = (Raised e, t).
Proof. intros E. unfold bind. by rewrite E. Qed.

Lemma bind_OutOfFuel m f h t :
  m h = (OutOfFuel, t) → bind m f h = (OutOfFuel, t).
Proof. intros E. unfold bind. by rewrite E. Qed.

Lemma bind_inv m f h o t :
  bind m f h = (o, t) →
  (∃ a t1 t2, m h = (Done a, t1) ∧ f a (h ++ t1) = (o, t2) ∧ t = t1 ++ t2)
  ∨ (∃ e, m h = (Raised e, t) ∧ o = Raised e)
  ∨ (m h = (OutOfFuel, t) ∧ o = OutOfFuel).
Proof.
  unfold bind. destruct (m h) as [[a|e|] t1] eqn:E.
  - destruct (f a (h ++ t1)) as [o' t2] eqn:F. intros [= <- <-].
    left. by exists a, t1, t2.
  - intros [= <- <-]. right; left. by exists e.
  - intros [= <- <-]. by right; right.
Qed.

Lemma bind_run m f h a t :
  m h = (Done a, t) → bind m f h = extend t (f a (h ++ t)).
Proof. intros E. unfold bind, extend. rewrite E. by destruct (f a (h ++ t)). Qed.

Lemma ret_bind (a : A) f h : bind (ret a) f h = f a h.
Proof. unfold bind, ret. rewrite app_nil_r. by destruct (f a h). Qed.

Lemma bind_prefix m f h : ∃ rest, snd (bind m f h) = snd (m h) ++ rest.
Proof.
  unfold bind. destruct (m h) as [[a|e|] t]; simpl.
  - destruct (f a (h ++ t)) as [o t']. by exists t'.
  - exists []. by rewrite app_nil_r.
  - exists []. by rewrite app_nil_r.
Qed.

End Monad.

Section Emits.

Context {A B : Type} (P : event → Prop).

Lemma emits_ret (a : A) : emits P (ret a).
Proof. intros h. constructor. Qed.

Lemma emits_raise e : emits P (@raise A e).
Proof. intros h. constructor. Qed.

Lemma emits_lift (r : exn + A) : emits P (lift r).
Proof. destruct r; [apply emits_raise | apply emits_ret]. Qed.

Lemma emits_getitem key (x : option A) : emits P (getitem key x).
Proof. destruct x; [apply emits_ret | apply emits_raise]. Qed.

Lemma emits_bind (m : task A) (f : A → task B) :
  emits P m → (∀ a, emits P (f a)) → emits P (bind m f).
Proof.
  intros Hm Hf h. unfold bind. specialize (Hm h).
  destruct (m h) as [[a|e|] t]; simpl in *; try done.
  specialize (Hf a (h ++ t)). destruct (f a (h ++ t)) as [o t']; simpl in *.
  by apply Forall_app.
Qed.

Lemma emits_finally (m : task A) e : emits P m → P e → emits P (finally m e).
Proof.
  intros Hm He h. unfold finally. specialize (Hm h).
  destruct (m h) as [[a|x|] t]; simpl in *; try done;
    apply Forall_app; split; auto.
Qed.

End Emits.

(** ** The command executor: [_run_cmd] *)

Section CommandExecutor.

Variable conf : Config.
Variable env : Env.

Lemma run_cmd_ok cmd cwd exc_msg h :
  returncode (os_subprocess_run env h cmd cwd) = 0 →
  _run_cmd conf env cmd cwd exc_msg h =
    (Done (stdout (os_subprocess_run env h cmd cwd)),
     [EvRun cmd cwd (os_subprocess_run env h cmd cwd)]).
Proof.
  intros Hrc. unfold _run_cmd, bind, subprocess_run.
  rewrite bool_decide_false by (by intros []). simpl. done.
Qed.

Lemma run_cmd_head cmd cwd exc_msg h :
  ∃ rest, snd (_run_cmd conf env cmd cwd exc_msg h)
          = EvRun cmd cwd (os_subprocess_run env h cmd cwd) :: rest.
Proof. apply (bind_prefix (subprocess_run env cmd cwd)). Qed.

Lemma sanitize_lookup credentials password cmd i arg :
  cmd !! i = Some arg →
  sanitize credentials password cmd !! i =
    Some (if bool_decide (arg = credentials) || bool_decide (arg = password)
          then redaction_marker else arg).
Proof. intros Hi. unfold sanitize. by rewrite list_lookup_fmap, Hi. Qed.

Lemma run_cmd_emits (P : event → Prop) cmd cwd exc_msg :
  (∀ r, P (EvRun cmd cwd r)) → (∀ text, P (EvLogError text)) →
  emits P (_run_cmd conf env cmd cwd exc_msg).
Proof.
  intros Hrun Hlog. unfold _run_cmd. apply emits_bind.
  - intros h. simpl. auto.
  - intros r. case_bool_decide; [|apply emits_ret].
    destruct (split_colon _) as [[u p]|]; [|apply emits_raise].
    apply emits_bind; [|intros; apply emits_raise].
    intros h. simpl. auto.
Qed.

(** C5, as the code has it.  When a command fails, [_run_cmd] logs the
    command with every argument that is equal to the configured credentials
    or to their password part replaced by the marker, every other argument
    unchanged, followed by the standard error of the command as it is; it
    then raises [IIBError] with the message of the caller. *)
Theorem run_cmd_failure_redacts_arguments cmd cwd exc_msg h user password :
  returncode (os_subprocess_run env h cmd cwd) ≠ 0 →
  split_colon (iib_registry_credentials conf) = Some (user, password) →
  let r := os_subprocess_run env h cmd cwd in
  let logged := sanitize (iib_registry_credentials conf) password cmd in
  _run_cmd conf env cmd cwd exc_msg h =
    (Raised (IIBError (str_or exc_msg "An unexpected error occurred")),
     [EvRun cmd cwd r;
      EvLogError ("The command " +:+ dq +:+ join " " logged +:+ dq +:+
                  " failed with: " +:+ stderr r)])
  ∧ length logged = length cmd
  ∧ (∀ i arg, cmd !! i = Some arg →
       (arg = iib_registry_credentials conf ∨ arg = password →
        logged !! i = Some "********") ∧
       (arg ≠ iib_registry_credentials conf → arg ≠ password →
        logged !! i = Some arg)).
Proof.
  intros Hrc Hsplit r logged. split; [|split].
  - unfold _run_cmd, bind, subprocess_run.
    rewrite bool_decide_true by done. rewrite Hsplit. simpl. done.
  - unfold logged, sanitize. by rewrite length_map.
  - intros i arg Hi. subst logged.
    rewrite (sanitize_lookup _ _ _ _ _ Hi). split.
    + intros [->| ->].
      * by rewrite bool_decide_true.
      * rewrite (bool_decide_true (password = password)) by done.
        by rewrite orb_true_r.
    + intros H1 H2. by rewrite !bool_decide_false.
Qed.

End CommandExecutor.

Lemma run_cmd_failure_redacts_arguments_witness :
  returncode (os_subprocess_run (Scenario.failing_env "denied") []
                ["podman"; "push"; "--creds"; "iib:s3cret"] None) ≠ 0
  ∧ split_colon (iib_registry_credentials Scenario.conf)
    = Some ("iib", "s3cret")
  ∧ snd (_run_cmd Scenario.conf (Scenario.failing_env "denied")
           ["podman"; "push"; "--creds"; "iib:s3cret"] None None [])
    = [EvRun ["podman"; "push"; "--creds"; "iib:s3cret"] None
         {| returncode := 1; stdout := ""; stderr := "denied" |};
       EvLogError
         ("The command " +:+ dq +:+ "podman push --creds ********" +:+ dq +:+
          " failed with: denied")].
Proof.
  split; [done|]. split; [reflexivity|].
  destruct (run_cmd_failure_redacts_arguments Scenario.conf
              (Scenario.failing_env "denied")
              ["podman"; "push"; "--creds"; "iib:s3cret"] None None []
              "iib" "s3cret") as [Hrun _]; [done | reflexivity |].
  rewrite Hrun. reflexivity.
Defined.

(** C5, as stated, does not hold: the standard error of the command is
    logged as it is, and an argument that only contains the credentials is
    not replaced.  Here the registry echoes the credentials on its standard
    error. *)
Lemma credentials_leak_through_stderr :
  ¬ never_logs_credentials Scenario.conf
      (Scenario.failing_env "unauthorized: iib:s3cret").
Proof.
  intros Hclaim.
  destruct (Hclaim ["podman"; "push"; "--creds"; "iib:s3cret"] None None []
              ("The command " +:+ dq +:+ "podman push --creds ********" +:+
               dq +:+ " failed with: unauthorized: iib:s3cret")
              "iib" "s3cret") as [Hleak _].
  - reflexivity.
  - vm_compute. apply list_elem_of_In. right. left. reflexivity.
  - vm_compute in Hleak. discriminate.
Qed.

(** ** The per-architecture worker: [opm_index_add] *)

Section Worker.

Variable conf : Config.
Variable env : Env.

Lemma format_with_arch t registry request_id arch :
  ∃ s, format t registry request_id (Some arch) = inr s.
Proof.
  induction t as [|seg t [s IH]]; simpl; [by eexists|].
  rewrite IH. destruct seg; by eexists.
Qed.

(** C4.  A worker that reads the request in the state [failed] sets the
    state to [failed] with a reason that names its own architecture and
    returns: its whole trace is the read and that update, so it removes no
    image, runs no build or push and reports no progress. *)
Theorem opm_index_add_failed_guard bundles binary_image request_id
    from_index h r :
  api_get_request env h request_id = inr r →
  state r = "failed" →
  let read := EvGetRequest request_id (inr r) in
  let reason := "Not building for the arch " +:+ iib_arch conf +:+
                " since the request has already failed" in
  let answer :=
    api_set_request_state env (h ++ [read]) request_id "failed" reason in
  opm_index_add conf env bundles binary_image request_id from_index h =
    (match answer with Some e => Raised e | None => Done tt end,
     [read; EvSetRequestState request_id "failed" reason answer]).
Proof.
  intros Hget Hfailed read reason answer.
  unfold opm_index_add.
  rewrite (bind_Done _ _ h r [read]).
  - rewrite bool_decide_true by done.
    unfold set_request_state. simpl. done.
  - unfold get_request. by rewrite Hget.
Qed.

(** C9.  The guard triggers for the state [failed] only.  For every other
    state that the worker reads, [complete] included, it goes on to remove
    the local images; and when every command, the rewrite of the Dockerfile
    and the API update succeed, it runs the whole sequence: clean, generate,
    patch, build, push and report. *)
Theorem opm_index_add_proceeds bundles binary_image request_id from_index
    h r :
  api_get_request env h request_id = inr r →
  state r ≠ "failed" →
  (∃ resp rest,
     snd (opm_index_add conf env bundles binary_image request_id from_index h)
     = EvGetRequest request_id (inr r)
       :: EvRun ["podman"; "rmi"; "--all"; "--force"] None resp :: rest)
  ∧ ((∀ h' cmd cwd, returncode (os_subprocess_run env h' cmd cwd) = 0) →
     (∀ h' path, os_rewrite_file env h' path = None) →
     (∀ h' p msg, api_update_request env h' request_id p msg = None) →
     ∃ r1 r2 r3 r4 dir dest,
       format (iib_arch_image_push_template conf) (iib_registry conf)
         request_id (Some (iib_arch conf)) = inr dest
       ∧ opm_index_add conf env bundles binary_image request_id from_index h
         = (Done tt,
            [EvGetRequest request_id (inr r);
             EvRun ["podman"; "rmi"; "--all"; "--force"] None r1;
             EvMkdtemp dir;
             EvRun (["opm"; "index"; "add"; "--generate"; "--bundles";
                     join "," bundles; "--binary-image"; binary_image]
                    ++ match truthy from_index with
                       | Some from_index => ["--from-index"; from_index]
                       | None => []
                       end) (Some dir) r2;
             EvFixOpmPath (dir +:+ "/index.Dockerfile") None;
             EvRun ["podman"; "build"; "-f"; dir +:+ "/index.Dockerfile";
                    "-t"; "operator-registry-index:" +:+ pretty request_id;
                    "."] (Some dir) r3;
             EvRmtree dir;
             EvRun ["podman"; "push"; "-q";
                    "operator-registry-index:" +:+ pretty request_id;
                    "docker://" +:+ dest; "--creds";
                    iib_registry_credentials conf] None r4;
             EvUpdateRequest request_id [("arches", PList [iib_arch conf])]
               ("Failed adding the arch " +:+ iib_arch conf) None])).
Proof.
  intros Hget Hstate.
  assert (Hread : get_request env request_id h
                  = (Done r, [EvGetRequest request_id (inr r)])).
  { unfold get_request. by rewrite Hget. }
  split.
  - unfold opm_index_add. rewrite (bind_Done _ _ _ _ _ Hread).
    rewrite bool_decide_false by done. cbn [snd]. unfold _cleanup.
    repeat match goal with
           | |- context [snd (bind ?m ?f ?h')] =>
               destruct (bind_prefix m f h') as [? ->]
           end.
    destruct (run_cmd_head conf env ["podman"; "rmi"; "--all"; "--force"]
                None (Some "Failed to remove the existing container images")
                (h ++ [EvGetRequest request_id (inr r)])) as [rest ->].
    simpl. eauto.
  - intros Hcmd Hfix Hupd.
    destruct (format_with_arch (iib_arch_image_push_template conf)
                (iib_registry conf) request_id (iib_arch conf)) as [dest Hdest].
    unfold opm_index_add.
    destruct (truthy from_index) as [from_index'|];
    eexists _, _, _, _, _, dest; (split; [done|]);
    rewrite (bind_Done _ _ _ _ _ Hread);
    rewrite bool_decide_false by done; simpl;
    unfold _cleanup;
    (erewrite bind_Done; cycle 1;
     [ erewrite bind_Done by (apply run_cmd_ok, Hcmd); reflexivity |]);
    simpl;
    (erewrite bind_Done; cycle 1;
     [ unfold with_temporary_directory, finally;
       erewrite bind_Done by (apply run_cmd_ok, Hcmd); simpl;
       (erewrite bind_Done; cycle 1;
        [ unfold _fix_opm_path; rewrite Hfix; reflexivity |]);
       simpl; unfold _build_image;
       erewrite bind_Done by (apply run_cmd_ok, Hcmd); simpl; reflexivity |]);
    simpl;
    (erewrite bind_Done; cycle 1;
     [ unfold _push_arch_image, _get_external_arch_pull_spec; simpl;
       rewrite Hdest; simpl;
       erewrite bind_Done by reflexivity; simpl;
       erewrite bind_Done by (apply run_cmd_ok, Hcmd); reflexivity |]);
    simpl; unfold update_request; rewrite Hupd; simpl; reflexivity.
Qed.

End Worker.

Lemma opm_index_add_failed_guard_witness :
  api_get_request (Scenario.steady_env Scenario.failed) [] 7
    = inr Scenario.failed
  ∧ state Scenario.failed = "failed"
  ∧ opm_index_add Scenario.conf (Scenario.steady_env Scenario.failed)
      ["quay.io/bundle:1"] "quay.io/opm@sha256:b1" 7 None []
    = (Done tt,
       [EvGetRequest 7 (inr Scenario.failed);
        EvSetRequestState 7 "failed"
          "Not building for the arch amd64 since the request has already failed"
          None]).
Proof.
  split; [reflexivity|]. split; [reflexivity|].
  exact (opm_index_add_failed_guard Scenario.conf
           (Scenario.steady_env Scenario.failed) ["quay.io/bundle:1"]
           "quay.io/opm@sha256:b1" 7 None [] Scenario.failed
           eq_refl eq_refl).
Defined.

Lemma opm_index_add_proceeds_witness :
  api_get_request (Scenario.steady_env Scenario.complete) [] 7
    = inr Scenario.complete
  ∧ state Scenario.complete ≠ "failed"
  ∧ ∃ rest,
      snd (opm_index_add Scenario.conf (Scenario.steady_env Scenario.complete)
             ["quay.io/bundle:1"] "quay.io/opm@sha256:b1" 7 None [])
      = EvGetRequest 7 (inr Scenario.complete)
        :: EvRun ["podman"; "rmi"; "--all"; "--force"] None
             {| returncode := 0; stdout := "--all --force"; stderr := "" |}
        :: rest.
Proof.
  assert (Hstate : state Scenario.complete ≠ "failed") by discriminate.
  split; [reflexivity|]. split; [exact Hstate|].
  destruct (opm_index_add_proceeds Scenario.conf
              (Scenario.steady_env Scenario.complete) ["quay.io/bundle:1"]
              "quay.io/opm@sha256:b1" 7 None [] Scenario.complete
              eq_refl Hstate) as [_ Hfull].
  destruct Hfull as (r1 & r2 & r3 & r4 & dir & dest & _ & Hrun);
    [reflexivity.. |].
  rewrite Hrun. simpl. eexists.
  assert (Hr1 : r1 = {| returncode := 0; stdout := "--all --force";
                        stderr := "" |}).
  { vm_compute in Hrun. congruence. }
  rewrite Hr1. reflexivity.
Defined.

(** A duplicate worker for a request that is already [complete] builds and
    pushes again. *)
Example opm_index_add_on_complete_request :
  opm_index_add Scenario.conf (Scenario.steady_env Scenario.complete)
    ["quay.io/bundle:1"] "quay.io/opm@sha256:b1" 7 None []
  = (Done tt,
     [EvGetRequest 7 (inr Scenario.complete);
      EvRun ["podman"; "rmi"; "--all"; "--force"] None
        {| returncode := 0; stdout := "--all --force"; stderr := "" |};
      EvMkdtemp "/tmp/iib-x";
      EvRun ["opm"; "index"; "add"; "--generate"; "--bundles";
             "quay.io/bundle:1"; "--binary-image"; "quay.io/opm@sha256:b1"]
        (Some "/tmp/iib-x")
        {| returncode := 0;
           stdout := "add --generate --bundles quay.io/bundle:1 --binary-image quay.io/opm@sha256:b1";
           stderr := "" |};
      EvFixOpmPath "/tmp/iib-x/index.Dockerfile" None;
      EvRun ["podman"; "build"; "-f"; "/tmp/iib-x/index.Dockerfile"; "-t";
             "operator-registry-index:7"; "."] (Some "/tmp/iib-x")
        {| returncode := 0;
           stdout := "-f /tmp/iib-x/index.Dockerfile -t operator-registry-index:7 .";
           stderr := "" |};
      EvRmtree "/tmp/iib-x";
      EvRun ["podman"; "push"; "-q"; "operator-registry-index:7";
             "docker://registry.example.com/iib-build:7-amd64"; "--creds";
             "iib:s3cret"] None
        {| returncode := 0;
           stdout := "-q operator-registry-index:7 docker://registry.example.com/iib-build:7-amd64 --creds iib:s3cret";
           stderr := "" |};
      EvUpdateRequest 7 [("arches", PList ["amd64"])]
        "Failed adding the arch amd64" None]).
Proof. vm_compute. reflexivity. Qed.

(** ** The image resolver: [_get_image_arches] *)

Section ImageResolver.

Variable conf : Config.
Variable env : Env.

Lemma fold_architectures (ms : list manifest_json) (acc : gset string) :
  fold_left (fun (arches : gset string) manifest =>
               arches ∪ {[ platform_architecture manifest ]}) ms acc
  = acc ∪ list_to_set (platform_architecture <$> ms).
Proof.
  revert acc. induction ms as [|m ms IH]; intros acc; simpl.
  - set_solver.
  - rewrite IH. set_solver.
Qed.

(** What [_get_image_arches] does once the raw inspection has returned the
    JSON object [j]. *)
Lemma get_image_arches_after_inspect pull_spec h j t :
  _skopeo_inspect conf env ["docker://" +:+ pull_spec; "--raw"] false h
    = (Done j, t) →
  _get_image_arches conf env pull_spec h
  = match mediaType j with
    | None => (Raised (KeyError "mediaType"), t)
    | Some media =>
        if bool_decide (media ≠ manifest_list_v2) then
          (Raised (IIBError ("The pull specification of " +:+ pull_spec +:+
                             " is not a v2 manifest list")), t)
        else match manifests j with
             | None => (Raised (KeyError "manifests"), t)
             | Some ms =>
                 (Done (list_to_set (platform_architecture <$> ms)), t)
             end
    end.
Proof.
  intros Hinspect. unfold _get_image_arches.
  rewrite (bind_Done _ _ _ _ _ Hinspect).
  destruct (mediaType j) as [media|]; run_task; [|done].
  destruct (bool_decide (media ≠ manifest_list_v2)); run_task; [done|].
  destruct (manifests j) as [ms|]; run_task; [|done].
  rewrite fold_architectures. do 2 f_equal. set_solver.
Qed.

(** C6.  When the raw inspection of the pull specification returns a media
    type that is not the v2 manifest list, [_get_image_arches] raises the
    "not a v2 manifest list" error; when it is the v2 manifest list, the
    result holds exactly the architectures of the platform entries of the
    list. *)
Theorem get_image_arches_spec pull_spec h j t media :
  _skopeo_inspect conf env ["docker://" +:+ pull_spec; "--raw"] false h
    = (Done j, t) →
  mediaType j = Some media →
  (media ≠ manifest_list_v2 →
   _get_image_arches conf env pull_spec h
   = (Raised (IIBError ("The pull specification of " +:+ pull_spec +:+
                        " is not a v2 manifest list")), t))
  ∧ (media = manifest_list_v2 → ∀ ms, manifests j = Some ms →
     ∃ found : gset string,
       _get_image_arches conf env pull_spec h = (Done found, t)
       ∧ ∀ a, a ∈ found ↔ ∃ m, m ∈ ms ∧ platform_architecture m = a).
Proof.
  intros Hinspect Hmedia.
  rewrite (get_image_arches_after_inspect _ _ _ _ Hinspect), Hmedia.
  split.
  - intros Hne. by rewrite bool_decide_true.
  - intros -> ms ->. rewrite bool_decide_false by (by intros []).
    eexists. split; [done|]. intros a.
    rewrite elem_of_list_to_set, list_elem_of_fmap. naive_solver.
Qed.

End ImageResolver.

Lemma get_image_arches_spec_witness :
  _skopeo_inspect Scenario.conf (Scenario.steady_env Scenario.complete)
    ["docker://" +:+ "quay.io/single@sha256:51"; "--raw"] false []
  = (Done {| Name := None; Digest := None;
             mediaType :=
               Some "application/vnd.docker.distribution.manifest.v2+json";
             manifests := None |},
     [EvRun ["skopeo"; "inspect"; "docker://quay.io/single@sha256:51"; "--raw"]
        None
        {| returncode := 0;
           stdout := "docker://quay.io/single@sha256:51 --raw";
           stderr := "" |}])
  ∧ fst (_get_image_arches Scenario.conf
           (Scenario.steady_env Scenario.complete)
           "quay.io/single@sha256:51" [])
    = Raised (IIBError
        "The pull specification of quay.io/single@sha256:51 is not a v2 manifest list").
Proof.
  split; [reflexivity|].
  destruct (get_image_arches_spec Scenario.conf
              (Scenario.steady_env Scenario.complete)
              "quay.io/single@sha256:51" [] _ _
              "application/vnd.docker.distribution.manifest.v2+json"
              eq_refl eq_refl) as [Hsingle _].
  rewrite Hsingle; [reflexivity | discriminate].
Defined.

(** A v2 manifest list gives the architectures of its entries. *)
Example get_image_arches_of_manifest_list :
  fst (_get_image_arches Scenario.conf
         (Scenario.steady_env Scenario.complete) "quay.io/index@sha256:f4" [])
  = Done {[ "amd64"; "arm64" ]}.
Proof. vm_compute. reflexivity. Qed.

(** ** Sorting architecture sets *)

Lemma sorted_list_perm l : sorted_list l ≡ₚ l.
Proof. apply merge_sort_Permutation. Qed.

Lemma sorted_list_sorted l : StronglySorted String.le (sorted_list l).
Proof. apply (StronglySorted_merge_sort String.le). Qed.

(** The order in which a set is enumerated does not change the result. *)
Lemma sorted_list_unique l1 l2 : l1 ≡ₚ l2 → sorted_list l1 = sorted_list l2.
Proof.
  intros Hperm. apply (StronglySorted_unique String.le).
  - apply sorted_list_sorted.
  - apply sorted_list_sorted.
  - by rewrite !sorted_list_perm.
Qed.

Lemma elem_of_sorted a (s : gset string) : a ∈ sorted s ↔ a ∈ s.
Proof. unfold sorted. by rewrite sorted_list_perm, elem_of_elements. Qed.

Lemma NoDup_sorted (s : gset string) : NoDup (sorted s).
Proof. unfold sorted. rewrite sorted_list_perm. apply NoDup_elements. Qed.

Lemma length_sorted (s : gset string) : length (sorted s) = size s.
Proof. unfold sorted. by rewrite sorted_list_perm. Qed.

Lemma sorted_empty : sorted ∅ = [].
Proof. unfold sorted. by rewrite elements_empty. Qed.

(** ** The orchestrator: [_prepare_request_for_build] *)

Section Prepare.

Variable conf : Config.
Variable env : Env.

Lemma requested_arches (add_arches : option (list string)) :
  match add_arches with
  | Some (a :: l) => list_to_set (a :: l)
  | _ => ∅
  end =@{gset string} list_to_set (default [] add_arches).
Proof. by destruct add_arches as [[|a l]|]. Qed.

Lemma extend_extend {A} t t' (r : outcome A * list event) :
  extend t (extend t' r) = extend (t ++ t') r.
Proof. unfold extend. simpl. by rewrite app_assoc. Qed.

Variables (binary_image : string) (request_id : Z).
Variables (from_index : option string) (add_arches : option (list string)).
Variables (h t1 t2 t3 : list event).
Variables (binary_image_resolved : string) (from_index_resolved : option string).
Variables (supported found : gset string).

Let opened : event :=
  EvSetRequestState request_id "in_progress" "Resolving the images" None.

Let target : gset string := list_to_set (default [] add_arches) ∪ found.

Hypothesis Hopened :
  api_set_request_state env h request_id "in_progress" "Resolving the images"
  = None.
Hypothesis Hbinary :
  _get_resolved_image conf env binary_image (h ++ [opened])
  = (Done binary_image_resolved, t1).
Hypothesis Hsupported :
  _get_image_arches conf env binary_image_resolved ((h ++ [opened]) ++ t1)
  = (Done supported, t2).
Hypothesis Hfrom :
  from_index_resolves conf env from_index (((h ++ [opened]) ++ t1) ++ t2)
    found from_index_resolved t3.

Lemma merge_from_index :
  match truthy from_index with
  | Some from_index =>
      from_index_resolved <- _get_resolved_image conf env from_index ;;
      from_index_arches <- _get_image_arches conf env from_index_resolved ;;
      ret (list_to_set (default [] add_arches) ∪ from_index_arches,
           Some from_index_resolved)
  | None => ret (list_to_set (default [] add_arches), None)
  end (((h ++ [opened]) ++ t1) ++ t2)
  = (Done (target, from_index_resolved), t3).
Proof.
  unfold from_index_resolves in Hfrom. subst target.
  destruct (truthy from_index) as [fi|].
  - destruct Hfrom as (r & ta & tb & Hr & Ha & Hfr & Ht).
    rewrite (bind_run _ _ _ _ _ Hr), (bind_run _ _ _ _ _ Ha).
    unfold extend, ret. simpl. by rewrite app_nil_r, Hfr, Ht.
  - destruct Hfrom as (Hfound & Hfr & Ht). unfold ret.
    rewrite Hfound, Hfr, Ht. do 3 f_equal. set_solver.
Qed.

Lemma prepare_run :
  ∃ accepted : outcome prebuild_info * list event,
    _prepare_request_for_build conf env binary_image request_id from_index
      add_arches h
    = extend (opened :: t1 ++ t2 ++ t3)
        (if bool_decide (target = ∅) then (Raised (IIBError no_arches_msg), [])
         else if bool_decide (target ⊈ supported) then
           (Raised (IIBError (binary_arch_msg (target ∖ supported))), [])
         else if bool_decide (target ⊈ iib_arches conf) then
           (Raised (IIBError (global_arch_msg (target ∖ iib_arches conf))), [])
         else accepted)
    ∧ ((∀ h' p msg, api_update_request env h' request_id p msg = None) →
       fst accepted
       = Done {| pi_arches := target;
                 pi_binary_image_resolved := binary_image_resolved;
                 pi_from_index_resolved := from_index_resolved |})
    ∧ (∀ info, fst accepted = Done info → pi_arches info = target)
    ∧ (∀ e, fst accepted = Raised e →
       ∃ h' p msg, api_update_request env h' request_id p msg = Some e).
Proof.
  unfold _prepare_request_for_build.
  erewrite bind_run; cycle 1.
  { unfold set_request_state. rewrite Hopened. reflexivity. }
  fold opened.
  rewrite (bind_run _ _ _ _ _ Hbinary).
  rewrite (bind_run _ _ _ _ _ Hsupported).
  rewrite requested_arches.
  rewrite (bind_run _ _ _ _ _ merge_from_index).
  rewrite !extend_extend.
  replace ((([opened] ++ t1) ++ t2) ++ t3) with (opened :: t1 ++ t2 ++ t3)
    by (simpl; by rewrite <- !app_assoc).
  match goal with
  | |- context [bind (update_request env request_id ?p ?msg) ?k] =>
      exists (bind (update_request env request_id p msg) k
                ((((h ++ [opened]) ++ t1) ++ t2) ++ t3))
  end.
  split; [by repeat case_bool_decide|].
  unfold bind, update_request, ret.
  match goal with
  | |- context [api_update_request env ?hist request_id ?p ?msg] =>
      destruct (api_update_request env hist request_id p msg) as [e|] eqn:Hupd
  end; simpl.
  - split; [intros Hacc; by rewrite Hacc in Hupd|].
    split; [done|]. intros e' [= <-]. eauto.
  - split; [done|]. split; [by intros info [= <-]|done].
Qed.

(** C7.  Once the images have been resolved, the target architecture set is
    the union of [add_arches], taken as a set and empty when absent, with
    the architectures of [from_index] when it is given; the preparation
    raises the "no arches" error exactly when that set is empty. *)
Theorem prepare_target_arches :
  (∀ h' p msg,
     api_update_request env h' request_id p msg
     ≠ Some (IIBError "No arches were provided to build the index image")) →
  (fst (_prepare_request_for_build conf env binary_image request_id
          from_index add_arches h)
   = Raised (IIBError "No arches were provided to build the index image")
   ↔ list_to_set (default [] add_arches) ∪ found = (∅ : gset string))
  ∧ (∀ info,
       fst (_prepare_request_for_build conf env binary_image request_id
              from_index add_arches h) = Done info →
       pi_arches info = list_to_set (default [] add_arches) ∪ found).
Proof.
  intros Hapi. destruct prepare_run as (accepted & -> & _ & Hinfo & Herr).
  fold target. unfold extend. cbn [fst].
  repeat case_bool_decide; simpl; split; try done.
  split; [|done]. intros Hacc. destruct (Herr _ Hacc) as (h' & p & msg & E).
  by destruct (Hapi h' p msg).
Qed.

(** C2.  For a non-empty target set, and an API that accepts the update,
    the preparation returns exactly when the target set is included both in
    the architectures of the binary image and in the configured ones.  When
    the binary image lacks some, the error lists exactly the target
    architectures that it lacks; otherwise, when the configuration lacks
    some, the error lists exactly those. *)
Theorem prepare_succeeds_iff_supported :
  target ≠ ∅ →
  (∀ h' p msg, api_update_request env h' request_id p msg = None) →
  ((∃ info,
      fst (_prepare_request_for_build conf env binary_image request_id
             from_index add_arches h) = Done info)
   ↔ target ⊆ supported ∧ target ⊆ iib_arches conf)
  ∧ (target ⊈ supported →
     ∃ names,
       fst (_prepare_request_for_build conf env binary_image request_id
              from_index add_arches h)
       = Raised (IIBError
           ("The binary image is not available for the following arches: "
            +:+ join ", " names))
       ∧ NoDup names ∧ ∀ a, a ∈ names ↔ a ∈ target ∧ a ∉ supported)
  ∧ (target ⊆ supported → target ⊈ iib_arches conf →
     ∃ names,
       fst (_prepare_request_for_build conf env binary_image request_id
              from_index add_arches h)
       = Raised (IIBError
           ("Building for the following requested arches is not supported: "
            +:+ join "," names))
       ∧ NoDup names ∧ ∀ a, a ∈ names ↔ a ∈ target ∧ a ∉ iib_arches conf).
Proof.
  intros Hne Hapi. destruct prepare_run as (accepted & -> & Hacc & _ & _).
  specialize (Hacc Hapi). unfold extend. cbn [fst].
  rewrite (bool_decide_false (target = ∅)) by done.
  split; [|split].
  - repeat case_bool_decide; simpl.
    + split; [by intros [info ?] | by intros [? ?]].
    + split; [by intros [info ?] | by intros [? ?]].
    + rewrite Hacc. split; [done | by eexists].
  - intros Hlack. rewrite bool_decide_true by done. simpl.
    exists (sorted (target ∖ supported)). split; [done|].
    split; [apply NoDup_sorted|]. intros a.
    rewrite elem_of_sorted. set_solver.
  - intros Hsup Hlack. rewrite bool_decide_false by (by intros []).
    rewrite bool_decide_true by done. simpl.
    exists (sorted (target ∖ iib_arches conf)). split; [done|].
    split; [apply NoDup_sorted|]. intros a.
    rewrite elem_of_sorted. set_solver.
Qed.

(** C10.  When some target architecture is supported neither by the binary
    image nor by the configuration, the preparation raises the error about
    the binary image, which names that architecture, and stops there: the
    check against the binary image comes first. *)
Theorem prepare_checks_binary_image_first a :
  a ∈ target → a ∉ supported → a ∉ iib_arches conf →
  _prepare_request_for_build conf env binary_image request_id from_index
    add_arches h
  = (Raised (IIBError
       ("The binary image is not available for the following arches: "
        +:+ join ", " (sorted (target ∖ supported)))),
     opened :: t1 ++ t2 ++ t3)
  ∧ a ∈ sorted (target ∖ supported)
  ∧ ∀ unsupported,
      "The binary image is not available for the following arches: "
      +:+ join ", " (sorted (target ∖ supported))
      ≠ global_arch_msg unsupported.
Proof.
  intros Ha Hbin Hglob. destruct prepare_run as (accepted & -> & _).
  rewrite bool_decide_false by set_solver.
  rewrite bool_decide_true by set_solver.
  unfold extend. simpl. rewrite !app_nil_r. split; [done|].
  split; [rewrite elem_of_sorted; set_solver|].
  intros unsupported. unfold global_arch_msg. discriminate.
Qed.

End Prepare.

Lemma prepare_target_arches_witness :
  api_set_request_state (Scenario.steady_env Scenario.complete) [] 7
    "in_progress" "Resolving the images" = None
  ∧ _get_resolved_image Scenario.conf (Scenario.steady_env Scenario.complete)
      "quay.io/opm:v1" ([] ++ [Scenario.opened])
    = (Done "quay.io/opm@sha256:b1", Scenario.resolve_opm)
  ∧ _get_image_arches Scenario.conf (Scenario.steady_env Scenario.complete)
      "quay.io/opm@sha256:b1"
      (([] ++ [Scenario.opened]) ++ Scenario.resolve_opm)
    = (Done {[ "amd64"; "s390x"; "ppc64le" ]}, Scenario.inspect_opm)
  ∧ from_index_resolves Scenario.conf (Scenario.steady_env Scenario.complete)
      None
      ((([] ++ [Scenario.opened]) ++ Scenario.resolve_opm)
       ++ Scenario.inspect_opm) ∅ None []
  ∧ (∀ h' p msg,
       api_update_request (Scenario.steady_env Scenario.complete) h' 7 p msg
       ≠ Some (IIBError "No arches were provided to build the index image"))
  ∧ ∀ info,
      fst (_prepare_request_for_build Scenario.conf
             (Scenario.steady_env Scenario.complete) "quay.io/opm:v1" 7 None
             (Some ["amd64"; "s390x"]) []) = Done info →
      pi_arches info = list_to_set ["amd64"; "s390x"] ∪ ∅.
Proof.
  assert (Hsupported :
    _get_image_arches Scenario.conf (Scenario.steady_env Scenario.complete)
      "quay.io/opm@sha256:b1"
      (([] ++ [Scenario.opened]) ++ Scenario.resolve_opm)
    = (Done {[ "amd64"; "s390x"; "ppc64le" ]}, Scenario.inspect_opm))
    by (vm_compute; reflexivity).
  assert (Hfrom :
    from_index_resolves Scenario.conf (Scenario.steady_env Scenario.complete)
      None
      ((([] ++ [Scenario.opened]) ++ Scenario.resolve_opm)
       ++ Scenario.inspect_opm) ∅ None [])
    by (repeat split).
  assert (Hapi : ∀ h' p msg,
    api_update_request (Scenario.steady_env Scenario.complete) h' 7 p msg
    ≠ Some (IIBError "No arches were provided to build the index image"))
    by (intros; discriminate).
  split; [reflexivity|]. split; [reflexivity|]. split; [exact Hsupported|].
  split; [exact Hfrom|]. split; [exact Hapi|].
  exact (proj2 (prepare_target_arches Scenario.conf
                  (Scenario.steady_env Scenario.complete) "quay.io/opm:v1" 7
                  None (Some ["amd64"; "s390x"]) [] _ _ _ _ _ _ _
                  eq_refl eq_refl Hsupported Hfrom Hapi)).
Defined.

Lemma prepare_succeeds_iff_supported_witness :
  api_set_request_state (Scenario.steady_env Scenario.complete) [] 7
    "in_progress" "Resolving the images" = None
  ∧ _get_resolved_image Scenario.conf (Scenario.steady_env Scenario.complete)
      "quay.io/opm:v1" ([] ++ [Scenario.opened])
    = (Done "quay.io/opm@sha256:b1", Scenario.resolve_opm)
  ∧ _get_image_arches Scenario.conf (Scenario.steady_env Scenario.complete)
      "quay.io/opm@sha256:b1"
      (([] ++ [Scenario.opened]) ++ Scenario.resolve_opm)
    = (Done {[ "amd64"; "s390x"; "ppc64le" ]}, Scenario.inspect_opm)
  ∧ from_index_resolves Scenario.conf (Scenario.steady_env Scenario.complete)
      None
      ((([] ++ [Scenario.opened]) ++ Scenario.resolve_opm)
       ++ Scenario.inspect_opm) ∅ None []
  ∧ (list_to_set ["amd64"; "s390x"] ∪ ∅) ≠@{gset string} ∅
  ∧ (∀ h' p msg,
       api_update_request (Scenario.steady_env Scenario.complete) h' 7 p msg
       = None)
  ∧ ((∃ info,
        fst (_prepare_request_for_build Scenario.conf
               (Scenario.steady_env Scenario.complete) "quay.io/opm:v1" 7
               None (Some ["amd64"; "s390x"]) []) = Done info)
     ↔ (list_to_set ["amd64"; "s390x"] ∪ ∅)
         ⊆@{gset string} {[ "amd64"; "s390x"; "ppc64le" ]}
       ∧ (list_to_set ["amd64"; "s390x"] ∪ ∅)
         ⊆@{gset string} iib_arches Scenario.conf).
Proof.
  assert (Hsupported :
    _get_image_arches Scenario.conf (Scenario.steady_env Scenario.complete)
      "quay.io/opm@sha256:b1"
      (([] ++ [Scenario.opened]) ++ Scenario.resolve_opm)
    = (Done {[ "amd64"; "s390x"; "ppc64le" ]}, Scenario.inspect_opm))
    by (vm_compute; reflexivity).
  assert (Hfrom :
    from_index_resolves Scenario.conf (Scenario.steady_env Scenario.complete)
      None
      ((([] ++ [Scenario.opened]) ++ Scenario.resolve_opm)
       ++ Scenario.inspect_opm) ∅ None [])
    by (repeat split).
  assert (Hne : (list_to_set ["amd64"; "s390x"] ∪ ∅) ≠@{gset string} ∅)
    by (vm_compute; discriminate).
  assert (Hapi : ∀ h' p msg,
    api_update_request (Scenario.steady_env Scenario.complete) h' 7 p msg
    = None) by reflexivity.
  split; [reflexivity|]. split; [reflexivity|]. split; [exact Hsupported|].
  split; [exact Hfrom|]. split; [exact Hne|]. split; [exact Hapi|].
  exact (proj1 (prepare_succeeds_iff_supported Scenario.conf
                  (Scenario.steady_env Scenario.complete) "quay.io/opm:v1" 7
                  None (Some ["amd64"; "s390x"]) [] _ _ _ _ _ _ _
                  eq_refl eq_refl Hsupported Hfrom Hne Hapi)).
Defined.

Lemma prepare_checks_binary_image_first_witness :
  api_set_request_state (Scenario.steady_env Scenario.complete) [] 7
    "in_progress" "Resolving the images" = None
  ∧ _get_resolved_image Scenario.conf (Scenario.steady_env Scenario.complete)
      "quay.io/opm:v1" ([] ++ [Scenario.opened])
    = (Done "quay.io/opm@sha256:b1", Scenario.resolve_opm)
  ∧ _get_image_arches Scenario.conf (Scenario.steady_env Scenario.complete)
      "quay.io/opm@sha256:b1"
      (([] ++ [Scenario.opened]) ++ Scenario.resolve_opm)
    = (Done {[ "amd64"; "s390x"; "ppc64le" ]}, Scenario.inspect_opm)
  ∧ from_index_resolves Scenario.conf (Scenario.steady_env Scenario.complete)
      (Some "quay.io/index:v4")
      ((([] ++ [Scenario.opened]) ++ Scenario.resolve_opm)
       ++ Scenario.inspect_opm) {[ "amd64"; "arm64" ]}
      (Some "quay.io/index@sha256:f4")
      (Scenario.resolve_index ++ Scenario.inspect_index)
  ∧ "arm64" ∈@{gset string} (list_to_set [] ∪ {[ "amd64"; "arm64" ]})
  ∧ ("arm64" ∉@{gset string} {[ "amd64"; "s390x"; "ppc64le" ]})
  ∧ ("arm64" ∉ iib_arches Scenario.conf)
  ∧ fst (_prepare_request_for_build Scenario.conf
           (Scenario.steady_env Scenario.complete) "quay.io/opm:v1" 7
           (Some "quay.io/index:v4") None [])
    = Raised (IIBError
        "The binary image is not available for the following arches: arm64").
Proof.
  assert (Hsupported :
    _get_image_arches Scenario.conf (Scenario.steady_env Scenario.complete)
      "quay.io/opm@sha256:b1"
      (([] ++ [Scenario.opened]) ++ Scenario.resolve_opm)
    = (Done {[ "amd64"; "s390x"; "ppc64le" ]}, Scenario.inspect_opm))
    by (vm_compute; reflexivity).
  assert (Hfrom :
    from_index_resolves Scenario.conf (Scenario.steady_env Scenario.complete)
      (Some "quay.io/index:v4")
      ((([] ++ [Scenario.opened]) ++ Scenario.resolve_opm)
       ++ Scenario.inspect_opm) {[ "amd64"; "arm64" ]}
      (Some "quay.io/index@sha256:f4")
      (Scenario.resolve_index ++ Scenario.inspect_index)).
  { exists "quay.io/index@sha256:f4", Scenario.resolve_index,
      Scenario.inspect_index.
    split; [reflexivity|]. split; [vm_compute; reflexivity|]. done. }
  assert (Hin : "arm64" ∈@{gset string}
                (list_to_set [] ∪ {[ "amd64"; "arm64" ]})) by set_solver.
  assert (Hbin : "arm64" ∉@{gset string} {[ "amd64"; "s390x"; "ppc64le" ]})
    by set_solver.
  assert (Hglob : "arm64" ∉ iib_arches Scenario.conf)
    by (simpl; set_solver).
  split; [reflexivity|]. split; [reflexivity|]. split; [exact Hsupported|].
  split; [exact Hfrom|]. split; [exact Hin|]. split; [exact Hbin|].
  split; [exact Hglob|].
  destruct (prepare_checks_binary_image_first Scenario.conf
              (Scenario.steady_env Scenario.complete) "quay.io/opm:v1" 7
              (Some "quay.io/index:v4") None [] _ _ _ _ _ _ _
              eq_refl eq_refl Hsupported Hfrom "arm64" Hin Hbin Hglob)
    as [Hrun _].
  rewrite Hrun. vm_compute. reflexivity.
Defined.

(** The configuration does not support an architecture that the binary
    image has: the error is the one about the configuration. *)
Example prepare_rejects_unconfigured_arch :
  fst (_prepare_request_for_build Scenario.conf
         (Scenario.steady_env Scenario.complete) "quay.io/opm-all:v1" 7
         (Some "quay.io/index:v4") None [])
  = Raised (IIBError
      "Building for the following requested arches is not supported: arm64").
Proof. vm_compute. reflexivity. Qed.

(** Without [from_index] and without [add_arches] there is nothing to
    build. *)
Example prepare_without_arches :
  fst (_prepare_request_for_build Scenario.conf
         (Scenario.steady_env Scenario.complete) "quay.io/opm:v1" 7 None None
         [])
  = Raised (IIBError "No arches were provided to build the index image").
Proof. vm_compute. reflexivity. Qed.

(** ** The orchestrator: [_poll_request] *)

Lemma polled_app t t' : polled (t ++ t') = polled t ++ polled t'.
Proof.
  induction t as [|e t IH]; [done|].
  destruct e as [| ? [e|r] | | | | | | | | |]; simpl; by rewrite ?IH.
Qed.

Lemma seen_cons r l : seen (r :: l) = list_to_set (arches r) ∪ seen l.
Proof. done. Qed.

Lemma seen_nil : seen [] = ∅.
Proof. done. Qed.

Lemma difference_subseteq_union (X A S : gset string) :
  X ∖ A ⊆ S → X ⊆ A ∪ S.
Proof. intros Hsub x Hx. destruct (decide (x ∈ A)); set_solver. Qed.

Section Poll.

Variable conf : Config.
Variable env : Env.

Let freq : Z := iib_poll_api_frequency conf.

(** One iteration of the loop. *)
Lemma poll_loop_step fuel request_id remaining h :
  _poll_request_loop conf env (S fuel) request_id remaining h
  = let answer := api_get_request env (h ++ [EvSleep freq]) request_id in
    let t := [EvSleep freq; EvGetRequest request_id answer] in
    match answer with
    | inl e => (Raised e, t)
    | inr r =>
        if bool_decide (state r ≠ "in_progress") then (Done false, t)
        else if bool_decide (remaining ∖ list_to_set (arches r) = ∅)
             then (Done true, t)
             else extend t (_poll_request_loop conf env fuel request_id
                              (remaining ∖ list_to_set (arches r)) (h ++ t))
    end.
Proof.
  cbn [_poll_request_loop]. unfold sleep, get_request, emit, bind at 1 2.
  fold freq. destruct (api_get_request env (h ++ [EvSleep freq]) request_id)
    as [e|r]; [done|].
  cbn zeta. destruct (bool_decide (state r ≠ "in_progress")); [done|].
  destruct (bool_decide (remaining ∖ list_to_set (arches r) = ∅)); [done|].
  unfold extend. rewrite <- app_assoc. cbn [app].
  by destruct (_poll_request_loop _ _ _ _ _ _).
Qed.

Lemma poll_loop_post fuel request_id remaining h :
  poll_post freq fuel request_id remaining
    (fst (_poll_request_loop conf env fuel request_id remaining h))
    (snd (_poll_request_loop conf env fuel request_id remaining h)).
Proof.
  revert remaining h. induction fuel as [|fuel IH]; intros remaining h.
  - simpl. split; try done.
    + exists []. done.
    + intros r Hr. by apply elem_of_nil in Hr.
  - rewrite poll_loop_step. cbn zeta.
    destruct (api_get_request env (h ++ [EvSleep freq]) request_id)
      as [e|r] eqn:Hans.
    { cbn [fst snd]. split; cbn [polled]; try done.
      - exists [inl e]. repeat split; [simpl; lia | done].
      - intros r Hr. by apply elem_of_nil in Hr. }
    case_bool_decide as Hstate.
    { cbn [fst snd]. split; cbn [polled]; try done.
      - exists [inr r]. repeat split; [simpl; lia | done].
      - intros _. by exists r.
      - intros _ Hall. by apply Forall_inv in Hall. }
    case_bool_decide as Hrem.
    { cbn [fst snd]. split; cbn [polled]; try done.
      - exists [inr r]. repeat split; [simpl; lia | done].
      - intros _. split; [done|]. split; [by constructor|].
        rewrite seen_cons, seen_nil.
        apply empty_difference_subseteq_L in Hrem. set_solver.
      - intros r' Hr' Hne. apply list_elem_of_singleton in Hr'. by subst. }
    specialize (IH (remaining ∖ list_to_set (arches r))
                  (h ++ [EvSleep freq; EvGetRequest request_id (inr r)])).
    destruct (_poll_request_loop conf env fuel request_id
                (remaining ∖ list_to_set (arches r))
                (h ++ [EvSleep freq; EvGetRequest request_id (inr r)]))
      as [o t]. unfold extend. cbn [fst snd] in *.
    destruct IH as [(obs & Hshape & Hlen & Hfuel) Htrue Hfalse Hleft Hcov].
    split; cbn [polled app].
    + exists (inr r :: obs). subst t. repeat split; [simpl; lia|].
      intros Ho. simpl. by rewrite Hfuel.
    + intros Ho. destruct (Htrue Ho) as (Hne & Hall & Hsub).
      split; [done|]. split; [by constructor|].
      rewrite seen_cons. by apply difference_subseteq_union.
    + intros Ho. destruct (Hfalse Ho) as (r' & Hlast & Hne).
      exists r'. split; [|done].
      destruct (polled t) as [|r0 l]; [done|]. done.
    + intros r' Hr' Hne. apply elem_of_cons in Hr' as [->|Hr']; [done|].
      by apply (Hleft r').
    + intros _ Hall Hsub. apply Forall_cons in Hall as [_ Hall].
      rewrite seen_cons in Hsub. apply Hcov; [|done|set_solver].
      intros Hnil. rewrite Hnil, seen_nil in Hsub. apply Hrem.
      apply subseteq_empty_difference_L. set_solver.
Qed.

(** While the record stays in progress and one target architecture is
    missing from it, the loop never returns. *)
Lemma poll_loop_stuck a fuel request_id remaining h :
  a ∈ remaining →
  (∀ h', ∃ r, api_get_request env h' request_id = inr r
              ∧ state r = "in_progress" ∧ a ∉ arches r) →
  fst (_poll_request_loop conf env fuel request_id remaining h) = OutOfFuel.
Proof.
  intros Ha Hstuck. revert remaining h Ha.
  induction fuel as [|fuel IH]; intros remaining h Ha; [done|].
  rewrite poll_loop_step. cbn zeta.
  destruct (Hstuck (h ++ [EvSleep freq])) as (r & -> & Hstate & Hr).
  rewrite bool_decide_false by (by intros []).
  rewrite bool_decide_false by set_solver.
  unfold extend. simpl. apply IH. set_solver.
Qed.

(** C3.  Every iteration of the polling loop sleeps for the configured
    interval and then reads the request.  The loop returns [False] as soon
    as a record is not in progress, and [True] exactly when every record
    read was in progress and the architectures reported so far cover the
    target set, that is when the remaining set has become empty.  Nothing
    bounds the number of iterations: while the record stays in progress
    with a target architecture missing, the loop is still running after any
    number of them. *)
Theorem poll_request_spec fuel request_id target h :
  let o := fst (_poll_request conf env fuel request_id target h) in
  let t := snd (_poll_request conf env fuel request_id target h) in
  (∃ obs, t = poll_events (iib_poll_api_frequency conf) request_id obs
          ∧ (length obs ≤ fuel)%nat
          ∧ (o = OutOfFuel → length obs = fuel))
  ∧ (∀ r, r ∈ polled t → state r ≠ "in_progress" → o = Done false)
  ∧ (o = Done false →
     ∃ r, last (polled t) = Some r ∧ state r ≠ "in_progress")
  ∧ (o = Done true ↔
     polled t ≠ [] ∧ Forall in_progress (polled t)
     ∧ target ⊆ seen (polled t))
  ∧ (∀ a, a ∈ target →
     (∀ h', ∃ r, api_get_request env h' request_id = inr r
                 ∧ state r = "in_progress" ∧ a ∉ arches r) →
     o = OutOfFuel).
Proof.
  intros o t. unfold _poll_request in o, t.
  destruct (poll_loop_post fuel request_id target h)
    as [Hshape Htrue Hfalse Hleft Hcov].
  split; [exact Hshape|]. split; [exact Hleft|]. split; [exact Hfalse|].
  split.
  - split; [exact Htrue|]. intros (Hne & Hall & Hsub). by apply Hcov.
  - intros a Ha Hstuck. by apply (poll_loop_stuck a).
Qed.

End Poll.

(** Both architectures are reported, one after the other, while the request
    stays in progress. *)
Example poll_request_two_arches :
  _poll_request Scenario.conf
    (Scenario.env [Scenario.in_progress ["amd64"]]
       (Scenario.in_progress ["amd64"; "s390x"]))
    5 7 {[ "amd64"; "s390x" ]} []
  = (Done true,
     [EvSleep 5; EvGetRequest 7 (inr (Scenario.in_progress ["amd64"]));
      EvSleep 5;
      EvGetRequest 7 (inr (Scenario.in_progress ["amd64"; "s390x"]))]).
Proof. vm_compute. reflexivity. Qed.

(** One job marks the request as failed before the other reports. *)
Example poll_request_failed :
  _poll_request Scenario.conf
    (Scenario.env [Scenario.in_progress ["amd64"]] Scenario.failed)
    5 7 {[ "amd64"; "s390x" ]} []
  = (Done false,
     [EvSleep 5; EvGetRequest 7 (inr (Scenario.in_progress ["amd64"]));
      EvSleep 5; EvGetRequest 7 (inr Scenario.failed)]).
Proof. vm_compute. reflexivity. Qed.

(** A worker that never reports keeps the orchestrator polling. *)
Example poll_request_stuck fuel :
  fst (_poll_request Scenario.conf
         (Scenario.steady_env (Scenario.in_progress ["amd64"]))
         fuel 7 {[ "amd64"; "s390x" ]} [])
  = OutOfFuel.
Proof.
  apply (poll_loop_stuck _ _ "s390x"); [set_solver|].
  intros h'. exists (Scenario.in_progress ["amd64"]).
  split; [simpl; by destruct (Scenario.count_gets h')|].
  split; [reflexivity|]. simpl. set_solver.
Qed.

(** ** The manifest list builder: [_create_and_push_manifest_list] *)

Section Manifest.

Variable conf : Config.
Variable env : Env.

Lemma get_external_arch_pull_spec_run request_id arch h :
  _get_external_arch_pull_spec conf request_id (Some arch) false h
  = (Done (external_arch_pull_spec conf request_id arch), []).
Proof.
  unfold _get_external_arch_pull_spec, external_arch_pull_spec.
  destruct (format_with_arch (iib_arch_image_push_template conf)
              (iib_registry conf) request_id
              (str_or (Some arch) (iib_arch conf))) as [s ->].
  by run_task.
Qed.

(** The loop over the sorted architectures appends one item per
    architecture and emits nothing. *)
Lemma for_each_items request_id l acc h :
  for_each l (fun arch =>
    arch_pull_spec <-
      _get_external_arch_pull_spec conf request_id (Some arch) false ;;
    ret (manifest_item arch_pull_spec arch)) acc h
  = (Done (fold_left (fun acc e => acc +:+ render_entry e)
             (map (fun arch =>
                {| entry_image := external_arch_pull_spec conf request_id arch;
                   entry_architecture := arch;
                   entry_os := "linux" |}) l) acc), []).
Proof.
  revert acc h. induction l as [|arch l IH]; intros acc h; [done|].
  cbn [for_each map fold_left].
  erewrite bind_run; cycle 1.
  { rewrite (bind_run _ _ _ _ _
               (get_external_arch_pull_spec_run request_id arch h)).
    reflexivity. }
  unfold extend. cbn [fst snd app]. rewrite IH. done.
Qed.

(** The run of [_create_and_push_manifest_list] once the output pull
    specification has been formatted. *)
Lemma create_and_push_run request_id arches h output :
  format (iib_image_push_template conf) (iib_registry conf) request_id None
    = inr output →
  let d := manifest_list_descriptor conf request_id output arches in
  let dir := os_mkdtemp env h in
  let path := dir +:+ "/manifest.yaml" in
  let r :=
    match split_colon (iib_registry_credentials conf) with
    | Some (username, password) =>
        _run_cmd conf env
          ["manifest-tool"; "--username"; username; "--password"; password;
           "push"; "from-spec"; path] None
          (Some ("Failed to push the manifest list to " +:+ output))
          ((h ++ [EvMkdtemp dir]) ++ [EvWriteFile path (render d)])
    | None =>
        (Raised (ValueError "not enough values to unpack (expected 2, got 1)"),
         [])
    end in
  _create_and_push_manifest_list conf env request_id arches h
  = (match fst r with
     | Done _ => Done output
     | Raised e => Raised e
     | OutOfFuel => OutOfFuel
     end,
     EvMkdtemp dir :: EvWriteFile path (render d) :: snd r
     ++ match fst r with OutOfFuel => [] | _ => [EvRmtree dir] end).
Proof.
  intros Hout d dir path r.
  unfold _create_and_push_manifest_list. rewrite Hout.
  unfold lift. rewrite ret_bind.
  unfold with_temporary_directory, finally, bind at 1.
  fold dir. fold path.
  rewrite (bind_run _ _ _ _ _
             (for_each_items request_id (sorted arches)
                (manifest_header output) (h ++ [EvMkdtemp dir]))).
  change (fold_left _ _ (manifest_header output)) with (render d).
  rewrite app_nil_r.
  rewrite (bind_run (emit (EvWriteFile path (render d))) _ _ tt
             [EvWriteFile path (render d)] eq_refl).
  unfold extend. cbn [fst snd app].
  assert (Hr : match split_colon (iib_registry_credentials conf) with
               | Some (username, password) =>
                   _run_cmd conf env
                     ["manifest-tool"; "--username"; username; "--password";
                      password; "push"; "from-spec"; path] None
                     (Some ("Failed to push the manifest list to " +:+ output))
               | None =>
                   raise (ValueError
                            "not enough values to unpack (expected 2, got 1)")
               end ((h ++ [EvMkdtemp dir]) ++ [EvWriteFile path (render d)])
               = r).
  { subst r. by destruct (split_colon _) as [[u p]|]. }
  rewrite Hr. clearbody r. destruct r as [[out|e|] t]; cbn [fst snd app].
  - unfold ret. by rewrite <- !app_assoc.
  - reflexivity.
  - by rewrite app_nil_r.
Qed.

(** C8.  The manifest descriptor written by
    [_create_and_push_manifest_list] is a function of the request id and of
    the architecture set alone: its top level names the output pull
    specification formatted from the request id, and its entries are, for
    the architectures in sorted order and once each, the external pull
    specification of the architecture with the platform made of that
    architecture and [linux].  The descriptor is then pushed with
    [manifest-tool], and the output pull specification is returned. *)
Theorem create_and_push_manifest_list_spec request_id arches h output :
  format (iib_image_push_template conf) (iib_registry conf) request_id None
    = inr output →
  let d := manifest_list_descriptor conf request_id output arches in
  descriptor_image d = output
  ∧ descriptor_manifests d
    = map (fun arch =>
             {| entry_image := external_arch_pull_spec conf request_id arch;
                entry_architecture := arch;
                entry_os := "linux" |}) (sorted arches)
  ∧ StronglySorted String.le (sorted arches)
  ∧ NoDup (sorted arches)
  ∧ (∀ a, a ∈ sorted arches ↔ a ∈ arches)
  ∧ (∀ l, l ≡ₚ elements arches → sorted_list l = sorted arches)
  ∧ (∀ a h', _get_external_arch_pull_spec conf request_id (Some a) false h'
             = (Done (external_arch_pull_spec conf request_id a), []))
  ∧ ∃ dir rest,
      snd (_create_and_push_manifest_list conf env request_id arches h)
      = EvMkdtemp dir
        :: EvWriteFile (dir +:+ "/manifest.yaml") (render d) :: rest
      ∧ ∀ user password,
          split_colon (iib_registry_credentials conf)
            = Some (user, password) →
          ∃ resp rest',
            rest = EvRun ["manifest-tool"; "--username"; user; "--password";
                          password; "push"; "from-spec";
                          dir +:+ "/manifest.yaml"] None resp :: rest'
            ∧ (returncode resp = 0 →
               _create_and_push_manifest_list conf env request_id arches h
               = (Done output,
                  [EvMkdtemp dir;
                   EvWriteFile (dir +:+ "/manifest.yaml") (render d);
                   EvRun ["manifest-tool"; "--username"; user; "--password";
                          password; "push"; "from-spec";
                          dir +:+ "/manifest.yaml"] None resp;
                   EvRmtree dir])).
Proof.
  intros Hout d.
  split; [done|]. split; [done|]. split; [apply sorted_list_sorted|].
  split; [apply NoDup_sorted|]. split; [intros a; apply elem_of_sorted|].
  split; [intros l Hl; by apply sorted_list_unique|].
  split; [intros; apply get_external_arch_pull_spec_run|].
  rewrite (create_and_push_run request_id arches h output Hout).
  cbn zeta. fold d.
  set (dir := os_mkdtemp env h). set (path := dir +:+ "/manifest.yaml").
  exists dir. eexists. split; [reflexivity|].
  intros user password ->.
  destruct (run_cmd_head conf env
              ["manifest-tool"; "--username"; user; "--password"; password;
               "push"; "from-spec"; path] None
              (Some ("Failed to push the manifest list to " +:+ output))
              ((h ++ [EvMkdtemp dir]) ++ [EvWriteFile path (render d)]))
    as [tail Htail].
  rewrite Htail. eexists _, _. split; [reflexivity|].
  intros Hrc. rewrite <- Htail.
  rewrite (run_cmd_ok conf env _ _ _ _ Hrc). reflexivity.
Qed.

End Manifest.

Lemma create_and_push_manifest_list_spec_witness :
  format (iib_image_push_template Scenario.conf)
    (iib_registry Scenario.conf) 7 None
  = inr "registry.example.com/iib-build:7"
  ∧ ∃ dir rest,
      snd (_create_and_push_manifest_list Scenario.conf
             (Scenario.steady_env (Scenario.in_progress ["amd64"; "s390x"])) 7
             {[ "s390x"; "amd64" ]} [])
      = EvMkdtemp dir
        :: EvWriteFile (dir +:+ "/manifest.yaml")
             (render (manifest_list_descriptor Scenario.conf 7
                        "registry.example.com/iib-build:7"
                        {[ "s390x"; "amd64" ]}))
        :: rest.
Proof.
  split; [reflexivity|].
  destruct (create_and_push_manifest_list_spec Scenario.conf
              (Scenario.steady_env (Scenario.in_progress ["amd64"; "s390x"]))
              7 {[ "s390x"; "amd64" ]} []
              "registry.example.com/iib-build:7" eq_refl)
    as (_ & _ & _ & _ & _ & _ & _ & dir & rest & Htrace & _).
  by exists dir, rest.
Defined.

(** The descriptor of request 7 for two architectures, as written to the
    file, and the push that follows. *)
Example create_and_push_two_arches :
  _create_and_push_manifest_list Scenario.conf
    (Scenario.steady_env (Scenario.in_progress ["amd64"; "s390x"])) 7
    {[ "s390x"; "amd64" ]} []
  = (Done "registry.example.com/iib-build:7",
     [EvMkdtemp "/tmp/iib-x";
      EvWriteFile "/tmp/iib-x/manifest.yaml"
        ("image: registry.example.com/iib-build:7" +:+ nl +:+
         "manifests:" +:+ nl +:+
         "- image: registry.example.com/iib-build:7-amd64" +:+ nl +:+
         "  platform:" +:+ nl +:+
         "    architecture: amd64" +:+ nl +:+
         "    os: linux" +:+ nl +:+
         "- image: registry.example.com/iib-build:7-s390x" +:+ nl +:+
         "  platform:" +:+ nl +:+
         "    architecture: s390x" +:+ nl +:+
         "    os: linux" +:+ nl);
      EvRun ["manifest-tool"; "--username"; "iib"; "--password"; "s3cret";
             "push"; "from-spec"; "/tmp/iib-x/manifest.yaml"] None
        {| returncode := 0;
           stdout := "iib --password s3cret push from-spec /tmp/iib-x/manifest.yaml";
           stderr := "" |};
      EvRmtree "/tmp/iib-x"]).
Proof. vm_compute. reflexivity. Qed.

(** ** The orchestrator: [handle_add_request] *)

Lemma pushes_app t t' : pushes (t ++ t') = (pushes t + pushes t')%nat.
Proof. induction t as [|e t IH]; simpl; [done|]. rewrite IH. lia. Qed.

Lemma quiet_trace t : Forall quiet t → pushes t = O ∧ polled t = [].
Proof.
  induction 1 as [|e t [Hread Hpush] _ [IH1 IH2]]; [done|].
  simpl. rewrite Hpush, IH1. split; [done|].
  destruct e as [| ? [?|?] | | | | | | | | |]; simpl in *; done.
Qed.

Lemma not_read_trace t : Forall not_read t → polled t = [].
Proof.
  induction 1 as [|e t Hread _ IH]; [done|].
  destruct e as [| ? [?|?] | | | | | | | | |]; simpl in *; done.
Qed.

Lemma pushes_poll_events freq request_id obs :
  pushes (poll_events freq request_id obs) = O.
Proof. induction obs as [|r obs IH]; [done|]. simpl. exact IH. Qed.

Lemma seen_subseteq_last l r :
  append_only l → last l = Some r → seen l ⊆ list_to_set (arches r).
Proof.
  intros Hmono Hlast x Hx.
  apply elem_of_union_list in Hx as (X & HX & Hx).
  apply list_elem_of_fmap in HX as (r' & -> & Hr').
  apply list_elem_of_lookup in Hr' as [i Hi].
  rewrite last_lookup in Hlast.
  refine (Hmono i _ r' r _ Hi Hlast x Hx).
  apply lookup_lt_Some in Hi. lia.
Qed.

Section Orchestrator.

Variable conf : Config.
Variable env : Env.

Lemma run_cmd_trace cmd cwd exc_msg h :
  ∃ text,
    snd (_run_cmd conf env cmd cwd exc_msg h)
      = [EvRun cmd cwd (os_subprocess_run env h cmd cwd)]
    ∨ snd (_run_cmd conf env cmd cwd exc_msg h)
      = [EvRun cmd cwd (os_subprocess_run env h cmd cwd); EvLogError text].
Proof.
  unfold _run_cmd, bind, subprocess_run, log_error, emit.
  case_bool_decide; [|exists ""; by left].
  destruct (split_colon _) as [[u p]|]; [|exists ""; by left].
  eexists. right. reflexivity.
Qed.

Lemma set_request_state_emits (P : event → Prop) request_id st reason :
  (∀ r, P (EvSetRequestState request_id st reason r)) →
  emits P (set_request_state env request_id st reason).
Proof. intros HP h. simpl. auto. Qed.

Lemma update_request_emits (P : event → Prop) request_id p msg :
  (∀ r, P (EvUpdateRequest request_id p msg r)) →
  emits P (update_request env request_id p msg).
Proof. intros HP h. simpl. auto. Qed.

Lemma skopeo_inspect_quiet args : emits quiet (_skopeo_inspect conf env args false).
Proof.
  unfold _skopeo_inspect. apply emits_bind.
  - apply run_cmd_emits; intros; by split.
  - intros out. destruct (json_loads env out);
      [apply emits_ret | apply emits_raise].
Qed.

Lemma get_resolved_image_quiet pull_spec :
  emits quiet (_get_resolved_image conf env pull_spec).
Proof.
  unfold _get_resolved_image.
  apply emits_bind; [apply skopeo_inspect_quiet|]. intros j.
  apply emits_bind; [apply emits_getitem|]. intros name.
  apply emits_bind; [apply emits_getitem|]. intros digest.
  apply emits_ret.
Qed.

Lemma get_image_arches_quiet pull_spec :
  emits quiet (_get_image_arches conf env pull_spec).
Proof.
  unfold _get_image_arches.
  apply emits_bind; [apply skopeo_inspect_quiet|]. intros j.
  apply emits_bind; [apply emits_getitem|]. intros media.
  case_bool_decide; [apply emits_raise|].
  apply emits_bind; [apply emits_getitem|]. intros ms. apply emits_ret.
Qed.

Lemma prepare_quiet binary_image request_id from_index add_arches :
  emits quiet (_prepare_request_for_build conf env binary_image request_id
                 from_index add_arches).
Proof.
  unfold _prepare_request_for_build.
  apply emits_bind; [apply set_request_state_emits; intros; by split|].
  intros _.
  apply emits_bind; [apply get_resolved_image_quiet|]. intros bres.
  apply emits_bind; [apply get_image_arches_quiet|]. intros supported.
  apply emits_bind.
  - destruct (truthy from_index) as [fi|]; [|apply emits_ret].
    apply emits_bind; [apply get_resolved_image_quiet|]. intros fres.
    apply emits_bind; [apply get_image_arches_quiet|]. intros found.
    apply emits_ret.
  - intros [target fres].
    repeat case_bool_decide; try apply emits_raise.
    apply emits_bind; [|intros; apply emits_ret].
    apply update_request_emits. intros; by split.
Qed.

Lemma dispatch_run bundles info request_id l h :
  ∃ t, dispatch bundles info request_id l h = (Done tt, t) ∧ Forall quiet t.
Proof.
  revert h. induction l as [|arch l IH]; intros h; [by exists []|].
  cbn [dispatch].
  rewrite (bind_run (emit _) _ _ tt [_] eq_refl).
  destruct (IH (h ++ [EvApplyAsync bundles (pi_binary_image_resolved info)
                        request_id (pi_from_index_resolved info)
                        ("iib_" +:+ arch) ("iib_" +:+ arch)]))
    as (t & -> & Ht).
  eexists. split; [reflexivity|]. simpl. constructor; [by split|done].
Qed.

Lemma create_and_push_trace request_id arches h :
  (pushes (snd (_create_and_push_manifest_list conf env request_id arches h))
   ≤ 1)%nat
  ∧ polled (snd (_create_and_push_manifest_list conf env request_id arches h))
    = [].
Proof.
  destruct (format (iib_image_push_template conf) (iib_registry conf)
              request_id None) as [e|output] eqn:Hout.
  { unfold _create_and_push_manifest_list. rewrite Hout. simpl. split; [lia|done]. }
  rewrite (create_and_push_run conf env request_id arches h output Hout).
  cbn zeta. cbn [snd].
  destruct (split_colon (iib_registry_credentials conf)) as [[u p]|].
  - match goal with
    | |- context [_run_cmd conf env ?cmd ?cwd ?msg ?hist] =>
        destruct (run_cmd_trace cmd cwd msg hist) as [text Htrace];
        destruct (_run_cmd conf env cmd cwd msg hist) as [o t]
    end.
    cbn [fst snd] in *.
    destruct Htrace as [-> | ->]; destruct o; simpl; split; (lia || done).
  - simpl. split; [lia|done].
Qed.

Lemma finish_trace request_id arches h :
  (pushes (snd (_finish_request_post_build conf env request_id arches h)) ≤ 1)%nat
  ∧ polled (snd (_finish_request_post_build conf env request_id arches h)) = [].
Proof.
  unfold _finish_request_post_build, bind, set_request_state, update_request.
  destruct (api_set_request_state env h request_id "in_progress"
              "Creating the manifest list") as [e|]; [simpl; split; [lia|done]|].
  set (h1 := h ++ _).
  destruct (create_and_push_trace request_id arches h1) as [Hpush Hpoll].
  destruct (_create_and_push_manifest_list conf env request_id arches h1)
    as [[out|e|] t]; cbn [fst snd] in *.
  - rewrite !pushes_app, !polled_app, Hpoll. simpl. split; [lia|done].
  - simpl. rewrite Hpoll. split; [lia|done].
  - simpl. rewrite Hpoll. split; [lia|done].
Qed.

(** C1.  A run of [handle_add_request] pushes the manifest list at most
    once.  It pushes none when polling reads a record that is not in
    progress.  When it pushes, every record that polling read was in
    progress and the architectures reported done cover the target set of
    the preparation; with an append-only [arches_done], the last record
    read covers the target set by itself. *)
Theorem manifest_list_pushed_at_most_once fuel bundles binary_image
    request_id from_index add_arches h :
  let t := snd (handle_add_request conf env fuel bundles binary_image
                  request_id from_index add_arches h) in
  (pushes t ≤ 1)%nat
  ∧ (∀ r, r ∈ polled t → state r ≠ "in_progress" → pushes t = O)
  ∧ (pushes t = 1%nat →
     ∃ info t0,
       _prepare_request_for_build conf env binary_image request_id
         from_index add_arches h = (Done info, t0)
       ∧ polled t ≠ []
       ∧ Forall in_progress (polled t)
       ∧ pi_arches info ⊆ seen (polled t)
       ∧ (append_only (polled t) →
          ∃ r, last (polled t) = Some r ∧ state r = "in_progress"
               ∧ pi_arches info ⊆ list_to_set (arches r))).
Proof.
  intros t. subst t. unfold handle_add_request.
  pose proof (prepare_quiet binary_image request_id from_index add_arches h)
    as Hprep.
  destruct (_prepare_request_for_build conf env binary_image request_id
              from_index add_arches h) as [[info|e|] t0] eqn:Eprep;
    cbn [snd] in Hprep; apply quiet_trace in Hprep as [Hp0 Hr0].
  2: { rewrite (bind_Raised _ _ _ _ _ Eprep). cbn [snd].
       rewrite Hp0, Hr0. split; [lia|]. split; [done|]. lia. }
  2: { rewrite (bind_OutOfFuel _ _ _ _ Eprep). cbn [snd].
       rewrite Hp0, Hr0. split; [lia|]. split; [done|]. lia. }
  rewrite (bind_run _ _ _ _ _ Eprep).
  destruct (dispatch_run bundles info request_id (sorted (pi_arches info))
              (h ++ t0)) as (td & Edisp & Hdisp).
  apply quiet_trace in Hdisp as [Hpd Hrd].
  rewrite (bind_run _ _ _ _ _ Edisp).
  set (h2 := (h ++ t0) ++ td).
  pose proof (poll_loop_post conf env fuel request_id (pi_arches info) h2)
    as [(obs & Hshape & _) Htrue _ Hleft _].
  unfold bind, _poll_request.
  destruct (_poll_request_loop conf env fuel request_id (pi_arches info) h2)
    as [[[|]|e|] tp]; cbn [fst snd negb] in *.
  - (* polling returned True: the request is finished *)
    destruct (finish_trace request_id (pi_arches info) (h2 ++ tp))
      as [Hpf Hrf].
    destruct (_finish_request_post_build conf env request_id (pi_arches info)
                (h2 ++ tp)) as [ofin tf]. unfold extend. cbn [fst snd] in *.
    destruct (Htrue eq_refl) as (Hne & Hall & Hcover).
    assert (Hpp : pushes tp = O) by (rewrite Hshape; apply pushes_poll_events).
    rewrite !pushes_app, !polled_app, Hp0, Hr0, Hpd, Hrd, Hpp, Hrf.
    cbn [app Nat.add]. rewrite app_nil_r.
    split; [done|]. split.
    + intros r Hr Hstate. exfalso. apply Hstate.
      exact (proj1 (Forall_forall _ _) Hall r Hr).
    + intros _. exists info, t0. split; [done|]. split; [done|].
      split; [done|]. split; [done|]. intros Hmono.
      destruct (last (polled tp)) as [r|] eqn:Hlast.
      * exists r. split; [done|]. split.
        -- apply (proj1 (Forall_forall _ _) Hall).
           apply last_Some in Hlast as [l' ->]. set_solver.
        -- etrans; [exact Hcover|]. by apply seen_subseteq_last.
      * apply last_None in Hlast. done.
  - (* polling returned False *)
    unfold extend, log_error, emit. cbn [fst snd].
    assert (Hpp : pushes tp = O) by (rewrite Hshape; apply pushes_poll_events).
    rewrite !pushes_app, Hp0, Hpd, Hpp. cbn.
    split; [lia|]. split; [done|]. lia.
  - unfold extend. cbn [fst snd].
    assert (Hpp : pushes tp = O) by (rewrite Hshape; apply pushes_poll_events).
    rewrite !pushes_app, Hp0, Hpd, Hpp. cbn.
    split; [lia|]. split; [done|]. lia.
  - unfold extend. cbn [fst snd].
    assert (Hpp : pushes tp = O) by (rewrite Hshape; apply pushes_poll_events).
    rewrite !pushes_app, Hp0, Hpd, Hpp. cbn.
    split; [lia|]. split; [done|]. lia.
Qed.

End Orchestrator.

(** Two jobs report one after the other while the request stays in
    progress: the manifest list is pushed once. *)
Example handle_add_request_pushes_once :
  pushes (snd (handle_add_request Scenario.conf
                 (Scenario.env [Scenario.in_progress ["amd64"]]
                    (Scenario.in_progress ["amd64"; "s390x"]))
                 5 ["quay.io/bundle:1"] "quay.io/opm:v1" 7 None
                 (Some ["amd64"; "s390x"]) []))
  = 1%nat.
Proof. vm_compute. reflexivity. Qed.

(** One job marks the request as failed before the other reports: the
    orchestrator logs the failure and builds no manifest list. *)
Example handle_add_request_aborts :
  handle_add_request Scenario.conf
    (Scenario.env [Scenario.in_progress ["amd64"]] Scenario.failed)
    5 ["quay.io/bundle:1"] "quay.io/opm:v1" 7 None
    (Some ["amd64"; "s390x"]) []
  = (Done tt,
     [Scenario.opened]
     ++ Scenario.resolve_opm ++ Scenario.inspect_opm
     ++ [EvUpdateRequest 7
           [("binary_image_resolved", PStr "quay.io/opm@sha256:b1");
            ("state", PStr "in_progress");
            ("state_reason",
             PStr "Scheduling index image builds for the following arches: amd64, s390x")]
           "Failed setting the resolved images on the request" None;
         EvApplyAsync ["quay.io/bundle:1"] "quay.io/opm@sha256:b1" 7 None
           "iib_amd64" "iib_amd64";
         EvApplyAsync ["quay.io/bundle:1"] "quay.io/opm@sha256:b1" 7 None
           "iib_s390x" "iib_s390x";
         EvSleep 5; EvGetRequest 7 (inr (Scenario.in_progress ["amd64"]));
         EvSleep 5; EvGetRequest 7 (inr Scenario.failed);
         EvLogError
           "Not finishing the request since one of the underlying builds failed"]).
Proof. vm_compute. reflexivity. Qed.

Lemma append_only_two_reports :
  append_only [Scenario.in_progress ["amd64"];
               Scenario.in_progress ["amd64"; "s390x"]].
Proof.
  intros [|[|i]] [|[|j]] r r' Hij Hi Hj; simplify_eq/=; try lia; set_solver.
Qed.

Lemma manifest_list_pushed_at_most_once_witness :
  pushes (snd (handle_add_request Scenario.conf
                 (Scenario.env [Scenario.in_progress ["amd64"]]
                    (Scenario.in_progress ["amd64"; "s390x"]))
                 5 ["quay.io/bundle:1"] "quay.io/opm:v1" 7 None
                 (Some ["amd64"; "s390x"]) []))
  = 1%nat
  ∧ append_only
      (polled (snd (handle_add_request Scenario.conf
                      (Scenario.env [Scenario.in_progress ["amd64"]]
                         (Scenario.in_progress ["amd64"; "s390x"]))
                      5 ["quay.io/bundle:1"] "quay.io/opm:v1" 7 None
                      (Some ["amd64"; "s390x"]) [])))
  ∧ ∃ info r,
      fst (_prepare_request_for_build Scenario.conf
             (Scenario.env [Scenario.in_progress ["amd64"]]
                (Scenario.in_progress ["amd64"; "s390x"]))
             "quay.io/opm:v1" 7 None (Some ["amd64"; "s390x"]) [])
      = Done info
      ∧ last (polled (snd (handle_add_request Scenario.conf
                             (Scenario.env [Scenario.in_progress ["amd64"]]
                                (Scenario.in_progress ["amd64"; "s390x"]))
                             5 ["quay.io/bundle:1"] "quay.io/opm:v1" 7 None
                             (Some ["amd64"; "s390x"]) [])))
        = Some r
      ∧ state r = "in_progress"
      ∧ pi_arches info ⊆ list_to_set (arches r).
Proof.
  assert (Hpushes :
    pushes (snd (handle_add_request Scenario.conf
                   (Scenario.env [Scenario.in_progress ["amd64"]]
                      (Scenario.in_progress ["amd64"; "s390x"]))
                   5 ["quay.io/bundle:1"] "quay.io/opm:v1" 7 None
                   (Some ["amd64"; "s390x"]) [])) = 1%nat)
    by (vm_compute; reflexivity).
  assert (Hpolled :
    polled (snd (handle_add_request Scenario.conf
                   (Scenario.env [Scenario.in_progress ["amd64"]]
                      (Scenario.in_progress ["amd64"; "s390x"]))
                   5 ["quay.io/bundle:1"] "quay.io/opm:v1" 7 None
                   (Some ["amd64"; "s390x"]) []))
    = [Scenario.in_progress ["amd64"];
       Scenario.in_progress ["amd64"; "s390x"]])
    by (vm_compute; reflexivity).
  assert (Hmono :
    append_only
      (polled (snd (handle_add_request Scenario.conf
                      (Scenario.env [Scenario.in_progress ["amd64"]]
                         (Scenario.in_progress ["amd64"; "s390x"]))
                      5 ["quay.io/bundle:1"] "quay.io/opm:v1" 7 None
                      (Some ["amd64"; "s390x"]) [])))).
  { rewrite Hpolled. exact append_only_two_reports. }
  split; [exact Hpushes|]. split; [exact Hmono|].
  destruct (manifest_list_pushed_at_most_once Scenario.conf
              (Scenario.env [Scenario.in_progress ["amd64"]]
                 (Scenario.in_progress ["amd64"; "s390x"]))
              5 ["quay.io/bundle:1"] "quay.io/opm:v1" 7 None
              (Some ["amd64"; "s390x"]) []) as (_ & _ & Honly).
  destruct (Honly Hpushes) as (info & t0 & Hprep & _ & _ & _ & Hlast).
  destruct (Hlast Hmono) as (r & Hr & Hstate & Hcover).
  exists info, r. rewrite Hprep.
  split; [reflexivity|]. split; [exact Hr|]. split; [exact Hstate|].
  exact Hcover.
Defined.

(** The polling loop accumulates what it reads: with a store that is not
    append-only, two records that report one architecture each are enough
    for the loop to return [True]. *)
Example poll_request_accumulates :
  fst (_poll_request Scenario.conf
         (Scenario.env [Scenario.in_progress ["amd64"]]
            (Scenario.in_progress ["s390x"]))
         5 7 {[ "amd64"; "s390x" ]} [])
  = Done true.
Proof. vm_compute. reflexivity. Qed.

(** * Further properties of the tasks *)

(** ** [_run_cmd] and its helpers *)

Lemma prefix_colon c s :
  String.prefix ":" (String c s) = Ascii.eqb c ":"%char.
Proof.
  change (String.prefix ":" (String c s))
    with (if ascii_dec ":"%char c then String.prefix "" s else false).
  destruct (ascii_dec ":"%char c) as [<-|Hne].
  - by destruct s.
  - symmetry. apply Ascii.eqb_neq. congruence.
Qed.

(** X1.  [s.split(':', 1)] cuts at the first colon only: it gives two
    parts exactly when the text is the first part, a colon and the second
    part, with no colon in the first part; it gives a single part, and the
    unpacking fails, exactly when the text has no colon. *)
Theorem split_colon_spec s :
  (∀ u p, split_colon s = Some (u, p)
          ↔ s = u +:+ ":" +:+ p ∧ occurs ":" u = false)
  ∧ (split_colon s = None ↔ occurs ":" s = false).
Proof.
  induction s as [|c s [IHsome IHnone]].
  - split; [|done]. intros u p. split; [done|].
    intros [Hs _]. by destruct u.
  - cbn [split_colon occurs]. rewrite prefix_colon.
    destruct (Ascii.eqb_spec c ":"%char) as [->|Hne].
    + split; [|done]. intros u p. split.
      * intros [= <- <-]. done.
      * intros [Hs Hu]. destruct u as [|c' u]; simpl in *.
        -- by injection Hs as ->.
        -- injection Hs as <- Hs. simpl in Hu.
           destruct (ascii_dec ":"%char ":"%char); [|done].
           by destruct u.
    + simpl. split.
      * intros u p. destruct (split_colon s) as [[u' p']|] eqn:Hsplit.
        -- split.
           ++ intros [= <- <-]. destruct (proj1 (IHsome u' p') eq_refl) as [-> Hu'].
              split; [done|]. cbn [occurs]. rewrite prefix_colon.
              by destruct (Ascii.eqb_spec c ":"%char).
           ++ intros [Hs Hu]. destruct u as [|c' u]; simpl in Hs.
              { injection Hs as -> _. done. }
              injection Hs as <- Hs. cbn [occurs] in Hu.
              rewrite prefix_colon in Hu.
              destruct (Ascii.eqb_spec c ":"%char); [done|]. simpl in Hu.
              assert (Some (u', p') = Some (u, p)) as [= -> ->]; [|done].
              by apply IHsome.
        -- split; [done|]. intros [Hs Hu]. destruct u as [|c' u]; simpl in Hs.
           { injection Hs as -> _. done. }
           injection Hs as <- Hs. cbn [occurs] in Hu.
           rewrite prefix_colon in Hu.
           destruct (Ascii.eqb_spec c ":"%char); [done|]. simpl in Hu.
           assert (@None (string * string) = Some (u, p)) as [=].
           by apply IHsome.
      * rewrite <- IHnone. destruct (split_colon s) as [[u' p']|]; done.
Qed.

Section MoreCommandExecutor.

Variable conf : Config.
Variable env : Env.

Lemma run_cmd_failed cmd cwd exc_msg h user password :
  returncode (os_subprocess_run env h cmd cwd) ≠ 0 →
  split_colon (iib_registry_credentials conf) = Some (user, password) →
  _run_cmd conf env cmd cwd exc_msg h
  = (Raised (IIBError (str_or exc_msg "An unexpected error occurred")),
     [EvRun cmd cwd (os_subprocess_run env h cmd cwd);
      EvLogError
        (failure_log_text
           (sanitize (iib_registry_credentials conf) password cmd)
           (stderr (os_subprocess_run env h cmd cwd)))]).
Proof.
  intros Hrc Hsplit. unfold _run_cmd, bind, subprocess_run.
  rewrite bool_decide_true by done. rewrite Hsplit. reflexivity.
Qed.

Lemma inspect_exc_msg_docker pull_spec rest :
  inspect_exc_msg (("docker://" +:+ pull_spec) :: rest)
  = Some ("Failed to inspect docker://" +:+ pull_spec +:+
          ". Make sure it exists and is accessible to IIB.").
Proof.
  cbn [inspect_exc_msg].
  assert (String.prefix "docker://" ("docker://" +:+ pull_spec) = true)
    as -> by (cbn; by destruct pull_spec).
  reflexivity.
Qed.

(** X2.  [_run_cmd] returns exactly when the command exits with the code 0;
    it then returns the standard output of the command and logs nothing,
    whatever the command wrote on its standard error. *)
Theorem run_cmd_returns_iff_zero cmd cwd exc_msg h out :
  (fst (_run_cmd conf env cmd cwd exc_msg h) = Done out
   ↔ returncode (os_subprocess_run env h cmd cwd) = 0
     ∧ out = stdout (os_subprocess_run env h cmd cwd))
  ∧ (returncode (os_subprocess_run env h cmd cwd) = 0 →
     snd (_run_cmd conf env cmd cwd exc_msg h)
     = [EvRun cmd cwd (os_subprocess_run env h cmd cwd)]).
Proof.
  split.
  - unfold _run_cmd, bind, subprocess_run, log_error, emit, raise, ret.
    case_bool_decide as Hrc.
    + destruct (split_colon _) as [[u p]|]; simpl; split;
        try done; by intros [? _].
    + simpl. split; [intros [= <-]|intros [_ ->]]; [split|]; try done.
  - intros Hrc. by rewrite run_cmd_ok.
Qed.

(** X3.  When the command fails and the configured credentials have no
    colon, the unpacking of the credentials raises [ValueError]: nothing is
    logged and the [IIBError] with the message of the caller is never
    raised. *)
Theorem run_cmd_failure_without_colon cmd cwd exc_msg h :
  returncode (os_subprocess_run env h cmd cwd) ≠ 0 →
  split_colon (iib_registry_credentials conf) = None →
  _run_cmd conf env cmd cwd exc_msg h
  = (Raised (ValueError "not enough values to unpack (expected 2, got 1)"),
     [EvRun cmd cwd (os_subprocess_run env h cmd cwd)]).
Proof.
  intros Hrc Hsplit. unfold _run_cmd, bind, subprocess_run.
  rewrite bool_decide_true by done. rewrite Hsplit. reflexivity.
Qed.

(** X4.  Unless the marker is itself the credentials or the password, no
    argument of the sanitized command is equal to the credentials or to
    the password, and the command keeps its length. *)
Theorem sanitize_removes_credentials credentials password cmd :
  redaction_marker ≠ credentials →
  redaction_marker ≠ password →
  (credentials ∉ sanitize credentials password cmd)
  ∧ (password ∉ sanitize credentials password cmd)
  ∧ length (sanitize credentials password cmd) = length cmd.
Proof.
  intros Hc Hp. unfold sanitize.
  split; [|split]; [| |by rewrite length_map].
  - intros Hin. apply list_elem_of_fmap in Hin as (arg & Heq & _).
    destruct (bool_decide (arg = credentials)) eqn:E1; simpl in Heq;
      [congruence|].
    destruct (bool_decide (arg = password)); [congruence|].
    apply bool_decide_eq_false in E1. congruence.
  - intros Hin. apply list_elem_of_fmap in Hin as (arg & Heq & _).
    destruct (bool_decide (arg = credentials)); simpl in Heq; [congruence|].
    destruct (bool_decide (arg = password)) eqn:E2; [congruence|].
    apply bool_decide_eq_false in E2. congruence.
Qed.

(** X5.  When [skopeo inspect] fails for an image, with credentials that
    have a colon, the resolution of the image and the inspection of its
    architectures raise the [IIBError] that names the image with its
    [docker://] transport. *)
Theorem inspection_failure_names_image pull_spec h user password :
  split_colon (iib_registry_credentials conf) = Some (user, password) →
  (returncode (os_subprocess_run env h
                 ["skopeo"; "inspect"; "docker://" +:+ pull_spec] None) ≠ 0 →
   fst (_get_resolved_image conf env pull_spec h)
   = Raised (IIBError ("Failed to inspect docker://" +:+ pull_spec +:+
                       ". Make sure it exists and is accessible to IIB.")))
  ∧ (returncode (os_subprocess_run env h
                   ["skopeo"; "inspect"; "docker://" +:+ pull_spec; "--raw"]
                   None) ≠ 0 →
     fst (_get_image_arches conf env pull_spec h)
     = Raised (IIBError ("Failed to inspect docker://" +:+ pull_spec +:+
                         ". Make sure it exists and is accessible to IIB."))).
Proof.
  intros Hsplit. split; intros Hrc.
  - pose proof (run_cmd_failed
                  ["skopeo"; "inspect"; "docker://" +:+ pull_spec] None
                  (inspect_exc_msg ["docker://" +:+ pull_spec]) h user
                  password Hrc Hsplit) as Hrun.
    unfold _get_resolved_image, _skopeo_inspect.
    rewrite (bind_Raised _ _ _ _ _ (bind_Raised _ _ _ _ _ Hrun)).
    by rewrite inspect_exc_msg_docker.
  - pose proof (run_cmd_failed
                  ["skopeo"; "inspect"; "docker://" +:+ pull_spec; "--raw"]
                  None (inspect_exc_msg ["docker://" +:+ pull_spec; "--raw"])
                  h user password Hrc Hsplit) as Hrun.
    unfold _get_image_arches, _skopeo_inspect.
    rewrite (bind_Raised _ _ _ _ _ (bind_Raised _ _ _ _ _ Hrun)).
    by rewrite inspect_exc_msg_docker.
Qed.

End MoreCommandExecutor.

Lemma run_cmd_failure_without_colon_witness :
  returncode (os_subprocess_run (Scenario.failing_env "denied") []
                ["podman"; "rmi"; "--all"; "--force"] None) ≠ 0
  ∧ split_colon (iib_registry_credentials Scenario.conf_without_colon) = None
  ∧ _run_cmd Scenario.conf_without_colon (Scenario.failing_env "denied")
      ["podman"; "rmi"; "--all"; "--force"] None
      (Some "Failed to remove the existing container images") []
    = (Raised (ValueError "not enough values to unpack (expected 2, got 1)"),
       [EvRun ["podman"; "rmi"; "--all"; "--force"] None
          {| returncode := 1; stdout := ""; stderr := "denied" |}]).
Proof.
  assert (Hrc : returncode (os_subprocess_run (Scenario.failing_env "denied")
                  [] ["podman"; "rmi"; "--all"; "--force"] None) ≠ 0)
    by discriminate.
  split; [exact Hrc|]. split; [reflexivity|].
  exact (run_cmd_failure_without_colon Scenario.conf_without_colon
           (Scenario.failing_env "denied")
           ["podman"; "rmi"; "--all"; "--force"] None
           (Some "Failed to remove the existing container images") []
           Hrc eq_refl).
Defined.

Lemma sanitize_removes_credentials_witness :
  redaction_marker ≠ "iib:s3cret"
  ∧ redaction_marker ≠ "s3cret"
  ∧ ("iib:s3cret"
     ∉ sanitize "iib:s3cret" "s3cret"
         ["podman"; "push"; "--creds"; "iib:s3cret"]).
Proof.
  assert (H1 : redaction_marker ≠ "iib:s3cret") by discriminate.
  assert (H2 : redaction_marker ≠ "s3cret") by discriminate.
  split; [exact H1|]. split; [exact H2|].
  exact (proj1 (sanitize_removes_credentials "iib:s3cret" "s3cret"
                  ["podman"; "push"; "--creds"; "iib:s3cret"] H1 H2)).
Defined.

Lemma inspection_failure_names_image_witness :
  split_colon (iib_registry_credentials Scenario.conf)
  = Some ("iib", "s3cret")
  ∧ returncode (os_subprocess_run (Scenario.failing_env "manifest unknown") []
                  ["skopeo"; "inspect"; "docker://" +:+ "quay.io/gone:v1"]
                  None) ≠ 0
  ∧ fst (_get_resolved_image Scenario.conf
           (Scenario.failing_env "manifest unknown") "quay.io/gone:v1" [])
    = Raised (IIBError
        "Failed to inspect docker://quay.io/gone:v1. Make sure it exists and is accessible to IIB.").
Proof.
  assert (Hrc : returncode
                  (os_subprocess_run (Scenario.failing_env "manifest unknown")
                     [] ["skopeo"; "inspect"; "docker://" +:+ "quay.io/gone:v1"]
                     None) ≠ 0) by discriminate.
  split; [reflexivity|]. split; [exact Hrc|].
  exact (proj1 (inspection_failure_names_image Scenario.conf
                  (Scenario.failing_env "manifest unknown") "quay.io/gone:v1"
                  [] "iib" "s3cret" eq_refl) Hrc).
Defined.

(** ** Image inspection *)

Section MoreImageResolver.

Variable conf : Config.
Variable env : Env.

Lemma sanitize_last credentials password l x :
  last (sanitize credentials password (l ++ [x; credentials]))
  = Some redaction_marker.
Proof.
  unfold sanitize.
  change (l ++ [x; credentials]) with (l ++ [x] ++ [credentials]).
  rewrite app_assoc, map_app. cbn [map].
  rewrite (bool_decide_true (credentials = credentials)) by done.
  apply last_snoc.
Qed.

(** X6.  When [skopeo inspect] exits with the code 0, [_skopeo_inspect]
    runs that single command and logs nothing; it returns the parsed
    output, and raises [ValueError], not [IIBError], when the output is not
    JSON.  With [use_creds] the command ends with [--creds] and the
    configured credentials. *)
Theorem skopeo_inspect_success (args : list string) (use_creds : bool) h :
  let cmd := ["skopeo"; "inspect"] ++ args
             ++ (if use_creds
                 then ["--creds"; iib_registry_credentials conf] else []) in
  let r := os_subprocess_run env h cmd None in
  returncode r = 0 →
  snd (_skopeo_inspect conf env args use_creds h) = [EvRun cmd None r]
  ∧ (∀ j, json_loads env (stdout r) = Some j →
          fst (_skopeo_inspect conf env args use_creds h) = Done j)
  ∧ (json_loads env (stdout r) = None →
     ∃ msg, fst (_skopeo_inspect conf env args use_creds h)
            = Raised (ValueError msg)).
Proof.
  intros cmd r Hrc. unfold _skopeo_inspect.
  assert (Hcmd : (if use_creds
                  then (["skopeo"; "inspect"] ++ args)
                       ++ ["--creds"; iib_registry_credentials conf]
                  else ["skopeo"; "inspect"] ++ args) = cmd).
  { subst cmd. destruct use_creds; [done|]. by rewrite app_nil_r. }
  rewrite Hcmd.
  rewrite (bind_run _ _ _ _ _
             (run_cmd_ok conf env cmd None (inspect_exc_msg args) h Hrc)).
  fold r. unfold extend.
  destruct (json_loads env (stdout r)) as [j|]; simpl.
  - split; [done|]. split; [by intros j' [= <-]|done].
  - split; [done|]. split; [done|]. intros _. by eexists.
Qed.

(** X7.  When [skopeo inspect] with [use_creds] fails, the command that is
    logged has the same number of arguments as the command that was run,
    and its last argument, the credentials, is the redaction marker. *)
Theorem skopeo_inspect_redacts_creds args h user password :
  let cmd := ["skopeo"; "inspect"] ++ args
             ++ ["--creds"; iib_registry_credentials conf] in
  let r := os_subprocess_run env h cmd None in
  returncode r ≠ 0 →
  split_colon (iib_registry_credentials conf) = Some (user, password) →
  ∃ logged,
    snd (_skopeo_inspect conf env args true h)
    = [EvRun cmd None r; EvLogError (failure_log_text logged (stderr r))]
    ∧ length logged = length cmd
    ∧ last logged = Some "********".
Proof.
  intros cmd r Hrc Hsplit. unfold _skopeo_inspect.
  change ((["skopeo"; "inspect"] ++ args)
          ++ ["--creds"; iib_registry_credentials conf]) with cmd.
  rewrite (bind_Raised _ _ _ _ _
             (run_cmd_failed conf env cmd None (inspect_exc_msg args) h
                user password Hrc Hsplit)).
  fold r. eexists. split; [reflexivity|].
  split; [unfold sanitize; by rewrite length_map|].
  subst cmd. rewrite app_assoc. apply sanitize_last.
Qed.

(** X8.  Once the inspection has returned a JSON object,
    [_get_resolved_image] gives the name and the digest joined by [@];
    without the key [Name] it raises [KeyError] for [Name], and with
    [Name] but without [Digest] it raises [KeyError] for [Digest]. *)
Theorem get_resolved_image_keys pull_spec h j t :
  _skopeo_inspect conf env ["docker://" +:+ pull_spec] false h = (Done j, t) →
  _get_resolved_image conf env pull_spec h
  = (match Name j, Digest j with
     | Some name, Some digest => Done (name +:+ "@" +:+ digest)
     | Some _, None => Raised (KeyError "Digest")
     | None, _ => Raised (KeyError "Name")
     end, t).
Proof.
  intros Hinspect. unfold _get_resolved_image.
  rewrite (bind_run _ _ _ _ _ Hinspect). unfold extend.
  destruct (Name j) as [name|], (Digest j) as [digest|]; by run_task.
Qed.

(** X9.  Once the raw inspection has returned a JSON object,
    [_get_image_arches] raises [KeyError] when the object has no
    [mediaType], and when it is a v2 manifest list without [manifests];
    for a manifest list it returns at most as many architectures as the
    list has entries, and none for an empty list. *)
Theorem get_image_arches_keys pull_spec h j t :
  _skopeo_inspect conf env ["docker://" +:+ pull_spec; "--raw"] false h
    = (Done j, t) →
  (mediaType j = None →
   _get_image_arches conf env pull_spec h
   = (Raised (KeyError "mediaType"), t))
  ∧ (mediaType j = Some manifest_list_v2 → manifests j = None →
     _get_image_arches conf env pull_spec h
     = (Raised (KeyError "manifests"), t))
  ∧ (mediaType j = Some manifest_list_v2 → ∀ ms, manifests j = Some ms →
     ∃ found : gset string,
       _get_image_arches conf env pull_spec h = (Done found, t)
       ∧ (size found ≤ length ms)%nat
       ∧ (ms = [] → found = ∅)).
Proof.
  intros Hinspect.
  rewrite (get_image_arches_after_inspect _ _ _ _ _ _ Hinspect).
  split; [by intros ->|]. split.
  - intros -> ->. by rewrite bool_decide_false by (by intros []).
  - intros -> ms ->. rewrite bool_decide_false by (by intros []).
    eexists. split; [done|]. split; [|by intros ->].
    clear. induction ms as [|m ms IH]; [done|].
    cbn [fmap list_fmap list_to_set foldr length].
    rewrite size_union_alt, size_singleton.
    assert (size (list_to_set (platform_architecture <$> ms)
                  ∖ {[platform_architecture m]} : gset string)
            ≤ size (list_to_set (platform_architecture <$> ms) : gset string))%nat
      by (apply subseteq_size; set_solver).
    lia.
Qed.

End MoreImageResolver.

Lemma skopeo_inspect_success_witness :
  returncode (os_subprocess_run (Scenario.steady_env Scenario.complete) []
                (["skopeo"; "inspect"] ++ ["docker://quay.io/opm:v1"] ++ [])
                None) = 0
  ∧ snd (_skopeo_inspect Scenario.conf (Scenario.steady_env Scenario.complete)
           ["docker://quay.io/opm:v1"] false [])
    = [Scenario.ran ["skopeo"; "inspect"; "docker://quay.io/opm:v1"]].
Proof.
  split; [reflexivity|].
  exact (proj1 (skopeo_inspect_success Scenario.conf
                  (Scenario.steady_env Scenario.complete)
                  ["docker://quay.io/opm:v1"] false [] eq_refl)).
Defined.

Lemma skopeo_inspect_redacts_creds_witness :
  returncode (os_subprocess_run (Scenario.failing_env "denied") []
                (["skopeo"; "inspect"] ++ ["docker://quay.io/opm:v1"]
                 ++ ["--creds"; iib_registry_credentials Scenario.conf])
                None) ≠ 0
  ∧ split_colon (iib_registry_credentials Scenario.conf)
    = Some ("iib", "s3cret")
  ∧ ∃ logged,
      snd (_skopeo_inspect Scenario.conf (Scenario.failing_env "denied")
             ["docker://quay.io/opm:v1"] true [])
      = [EvRun ["skopeo"; "inspect"; "docker://quay.io/opm:v1"; "--creds";
                "iib:s3cret"] None
           {| returncode := 1; stdout := ""; stderr := "denied" |};
         EvLogError (failure_log_text logged "denied")]
      ∧ length logged = 5%nat
      ∧ last logged = Some "********".
Proof.
  assert (Hrc : returncode
                  (os_subprocess_run (Scenario.failing_env "denied") []
                     (["skopeo"; "inspect"] ++ ["docker://quay.io/opm:v1"]
                      ++ ["--creds"; iib_registry_credentials Scenario.conf])
                     None) ≠ 0) by discriminate.
  split; [exact Hrc|]. split; [reflexivity|].
  exact (skopeo_inspect_redacts_creds Scenario.conf
           (Scenario.failing_env "denied") ["docker://quay.io/opm:v1"] []
           "iib" "s3cret" Hrc eq_refl).
Defined.

Lemma get_resolved_image_keys_witness :
  _skopeo_inspect Scenario.conf (Scenario.steady_env Scenario.complete)
    ["docker://" +:+ "quay.io/opm:v1"] false []
  = (Done (Scenario.resolved "quay.io/opm" "sha256:b1"), Scenario.resolve_opm)
  ∧ _get_resolved_image Scenario.conf (Scenario.steady_env Scenario.complete)
      "quay.io/opm:v1" []
    = (Done "quay.io/opm@sha256:b1", Scenario.resolve_opm).
Proof.
  split; [reflexivity|].
  exact (get_resolved_image_keys Scenario.conf
           (Scenario.steady_env Scenario.complete) "quay.io/opm:v1" []
           (Scenario.resolved "quay.io/opm" "sha256:b1") Scenario.resolve_opm
           eq_refl).
Defined.

Lemma get_image_arches_keys_witness :
  _skopeo_inspect Scenario.conf Scenario.legacy_env
    ["docker://" +:+ "quay.io/legacy@sha256:01"; "--raw"] false []
  = (Done (Scenario.resolved "quay.io/legacy" "sha256:01"),
     [Scenario.ran ["skopeo"; "inspect"; "docker://quay.io/legacy@sha256:01";
                    "--raw"]])
  ∧ mediaType (Scenario.resolved "quay.io/legacy" "sha256:01") = None
  ∧ fst (_get_image_arches Scenario.conf Scenario.legacy_env
           "quay.io/legacy@sha256:01" [])
    = Raised (KeyError "mediaType").
Proof.
  split; [reflexivity|]. split; [reflexivity|].
  destruct (get_image_arches_keys Scenario.conf Scenario.legacy_env
              "quay.io/legacy@sha256:01" []
              (Scenario.resolved "quay.io/legacy" "sha256:01") _ eq_refl)
    as [Hmissing _].
  by rewrite Hmissing.
Defined.

(** ** More on [_prepare_request_for_build] *)

Section MorePrepare.

Variable conf : Config.
Variable env : Env.

Lemma skopeo_inspect_only_inspects args :
  emits only_inspects (_skopeo_inspect conf env args false).
Proof.
  unfold _skopeo_inspect. apply emits_bind.
  - apply run_cmd_emits; [|done]. intros r. by exists args.
  - intros out. destruct (json_loads env out);
      [apply emits_ret | apply emits_raise].
Qed.

Lemma prepare_inspects binary_image request_id from_index add_arches :
  emits only_inspects
    (_prepare_request_for_build conf env binary_image request_id from_index
       add_arches).
Proof.
  assert (Hres : ∀ s, emits only_inspects (_get_resolved_image conf env s)).
  { intros s. unfold _get_resolved_image.
    apply emits_bind; [apply skopeo_inspect_only_inspects|]. intros j.
    apply emits_bind; [apply emits_getitem|]. intros name.
    apply emits_bind; [apply emits_getitem|]. intros digest.
    apply emits_ret. }
  assert (Harch : ∀ s, emits only_inspects (_get_image_arches conf env s)).
  { intros s. unfold _get_image_arches.
    apply emits_bind; [apply skopeo_inspect_only_inspects|]. intros j.
    apply emits_bind; [apply emits_getitem|]. intros media.
    case_bool_decide; [apply emits_raise|].
    apply emits_bind; [apply emits_getitem|]. intros ms. apply emits_ret. }
  unfold _prepare_request_for_build.
  apply emits_bind; [by apply set_request_state_emits|]. intros _.
  apply emits_bind; [apply Hres|]. intros bres.
  apply emits_bind; [apply Harch|]. intros supported.
  apply emits_bind.
  - destruct (truthy from_index) as [fi|]; [|apply emits_ret].
    apply emits_bind; [apply Hres|]. intros fres.
    apply emits_bind; [apply Harch|]. intros found. apply emits_ret.
  - intros [target fres].
    repeat case_bool_decide; try apply emits_raise.
    apply emits_bind; [|intros; apply emits_ret].
    by apply update_request_emits.
Qed.


(** X10.  Whatever the registry and the API answer, the preparation only
    calls the API to set the state and to update the request, and runs
    [skopeo inspect]: it runs no other command, dispatches no job, creates
    no file or directory, and neither sleeps nor reads the request. *)
Theorem prepare_only_inspects binary_image request_id from_index add_arches
    h :
  Forall only_inspects
    (snd (_prepare_request_for_build conf env binary_image request_id
            from_index add_arches h)).
Proof. apply prepare_inspects. Qed.

(** X11.  When the API refuses the first state update, the preparation
    raises the error of the API and does nothing else: no image is
    inspected. *)
Theorem prepare_stops_when_api_rejects binary_image request_id from_index
    add_arches h e :
  api_set_request_state env h request_id "in_progress" "Resolving the images"
  = Some e →
  _prepare_request_for_build conf env binary_image request_id from_index
    add_arches h
  = (Raised e,
     [EvSetRequestState request_id "in_progress" "Resolving the images"
        (Some e)]).
Proof.
  intros Hapi. unfold _prepare_request_for_build.
  apply bind_Raised. unfold set_request_state. by rewrite Hapi.
Qed.

(** X12.  Whenever the preparation returns, the architecture set it
    returns is not empty and is included in the configured architectures
    and in the architectures that the inspection of the resolved binary
    image returned; the trace starts with the state update to
    [in_progress] and ends with the accepted update of the request, which
    carries the state [in_progress] and the resolved binary image. *)
Theorem prepare_postcondition binary_image request_id from_index add_arches
    h info t :
  _prepare_request_for_build conf env binary_image request_id from_index
    add_arches h = (Done info, t) →
  pi_arches info ≠ ∅
  ∧ pi_arches info ⊆ iib_arches conf
  ∧ (∃ supported h' t',
       _get_image_arches conf env (pi_binary_image_resolved info) h'
       = (Done supported, t')
       ∧ pi_arches info ⊆ supported)
  ∧ ∃ t' p,
      t = EvSetRequestState request_id "in_progress" "Resolving the images"
            None
          :: t'
          ++ [EvUpdateRequest request_id p
                "Failed setting the resolved images on the request" None]
      ∧ ("state", PStr "in_progress") ∈ p
      ∧ ("binary_image_resolved", PStr (pi_binary_image_resolved info)) ∈ p.
Proof.
  unfold _prepare_request_for_build. intros Hrun.
  apply bind_inv in Hrun
    as [(a & t1 & t2 & H1 & Hrun & ->) | [(e & _ & [=]) | (_ & [=])]].
  unfold set_request_state in H1.
  destruct (api_set_request_state env h request_id "in_progress"
              "Resolving the images") as [e|]; [done|].
  injection H1 as _ <-.
  apply bind_inv in Hrun
    as [(bres & t3 & t4 & Hbres & Hrun & ->) | [(e & _ & [=]) | (_ & [=])]].
  apply bind_inv in Hrun
    as [(supported & t5 & t6 & Hsup & Hrun & ->)
       | [(e & _ & [=]) | (_ & [=])]].
  apply bind_inv in Hrun
    as [([target fres] & t7 & t8 & _ & Hrun & ->)
       | [(e & _ & [=]) | (_ & [=])]].
  case_bool_decide as Hne; [done|].
  case_bool_decide as Hbin; [done|].
  case_bool_decide as Hglob; [done|].
  apply bind_inv in Hrun
    as [(a' & t9 & t10 & Hupd & Hret & ->) | [(e & _ & [=]) | (_ & [=])]].
  injection Hret as <- <-. cbn [pi_arches pi_binary_image_resolved].
  unfold update_request in Hupd.
  match type of Hupd with
  | context [api_update_request env ?hh request_id ?pp ?mm] =>
      destruct (api_update_request env hh request_id pp mm) as [e|];
        [done|]; set (p := pp) in *
  end.
  injection Hupd as _ <-.
  split; [done|]. split; [done|].
  split; [exists supported; eexists _, _; split; [exact Hsup|done]|].
  exists (t3 ++ t5 ++ t7), p. split.
  - cbn. by rewrite <- !app_assoc.
  - subst p. destruct (truthy fres); set_solver.
Qed.

End MorePrepare.

Lemma prepare_stops_when_api_rejects_witness :
  api_set_request_state Scenario.down_env [] 7 "in_progress"
    "Resolving the images" = Some (IIBError "API is down")
  ∧ _prepare_request_for_build Scenario.conf Scenario.down_env
      "quay.io/opm:v1" 7 None (Some ["amd64"]) []
    = (Raised (IIBError "API is down"),
       [EvSetRequestState 7 "in_progress" "Resolving the images"
          (Some (IIBError "API is down"))]).
Proof.
  split; [reflexivity|].
  exact (prepare_stops_when_api_rejects Scenario.conf Scenario.down_env
           "quay.io/opm:v1" 7 None (Some ["amd64"]) []
           (IIBError "API is down") eq_refl).
Defined.

Lemma prepare_postcondition_witness :
  _prepare_request_for_build Scenario.conf
    (Scenario.steady_env Scenario.complete) "quay.io/opm:v1" 7 None
    (Some ["amd64"; "s390x"]) []
  = (Done Scenario.prepared,
     [Scenario.opened] ++ Scenario.resolve_opm ++ Scenario.inspect_opm
     ++ [Scenario.scheduled])
  ∧ pi_arches Scenario.prepared ≠ ∅
  ∧ pi_arches Scenario.prepared ⊆ iib_arches Scenario.conf.
Proof.
  assert (Hrun :
    _prepare_request_for_build Scenario.conf
      (Scenario.steady_env Scenario.complete) "quay.io/opm:v1" 7 None
      (Some ["amd64"; "s390x"]) []
    = (Done Scenario.prepared,
       [Scenario.opened] ++ Scenario.resolve_opm ++ Scenario.inspect_opm
       ++ [Scenario.scheduled])) by (vm_compute; reflexivity).
  split; [exact Hrun|].
  destruct (prepare_postcondition Scenario.conf
              (Scenario.steady_env Scenario.complete) "quay.io/opm:v1" 7 None
              (Some ["amd64"; "s390x"]) [] _ _ Hrun) as (Hne & Hsub & _).
  split; [exact Hne | exact Hsub].
Defined.

(** ** More on [handle_add_request] *)

Lemma dispatched_app t t' : dispatched (t ++ t') = dispatched t ++ dispatched t'.
Proof.
  induction t as [|e t IH]; [done|].
  destruct e; simpl; by rewrite ?IH.
Qed.

Lemma dispatched_none (P : event → Prop) t :
  (∀ b i r f q k, ¬ P (EvApplyAsync b i r f q k)) →
  Forall P t → dispatched t = [].
Proof.
  intros HP. induction 1 as [|e t He _ IH]; [done|].
  destruct e; simpl; try done. by destruct (HP _ _ _ _ _ _ He).
Qed.

Lemma Exists_marks_complete_app t t' :
  Exists marks_complete (t ++ t')
  → Exists marks_complete t ∨ Exists marks_complete t'.
Proof. apply Exists_app. Qed.

Section MoreOrchestrator.

Variable conf : Config.
Variable env : Env.

Lemma with_temporary_directory_emits {A} (P : event → Prop)
    (body : string → task A) :
  (∀ d, P (EvMkdtemp d)) → (∀ d, P (EvRmtree d)) →
  (∀ d, emits P (body d)) →
  emits P (with_temporary_directory env body).
Proof.
  intros Hmk Hrm Hbody h. unfold with_temporary_directory.
  pose proof (emits_finally P (body (os_mkdtemp env h))
                (EvRmtree (os_mkdtemp env h)) (Hbody _) (Hrm _)
                (h ++ [EvMkdtemp (os_mkdtemp env h)])) as Hfin.
  destruct (finally _ _ _) as [o t]. simpl in *. by constructor.
Qed.

Lemma create_and_push_emits (P : event → Prop) request_id arches :
  (∀ d, P (EvMkdtemp d)) → (∀ d, P (EvRmtree d)) →
  (∀ f c, P (EvWriteFile f c)) →
  (∀ args r, P (EvRun ("manifest-tool" :: args) None r)) →
  (∀ text, P (EvLogError text)) →
  emits P (_create_and_push_manifest_list conf env request_id arches).
Proof.
  intros Hmk Hrm Hwr Hrun Hlog. unfold _create_and_push_manifest_list.
  apply emits_bind; [apply emits_lift|]. intros output.
  apply emits_bind; [|intros; apply emits_ret].
  apply with_temporary_directory_emits; [done..|]. intros d.
  apply emits_bind.
  { intros h. rewrite for_each_items. constructor. }
  intros content. apply emits_bind.
  { intros h. simpl. auto. }
  intros _. destruct (split_colon _) as [[u p]|]; [|apply emits_raise].
  apply run_cmd_emits; auto.
Qed.

Lemma finish_emits (P : event → Prop) request_id arches :
  (∀ st reason r, P (EvSetRequestState request_id st reason r)) →
  (∀ p m r, P (EvUpdateRequest request_id p m r)) →
  (∀ d, P (EvMkdtemp d)) → (∀ d, P (EvRmtree d)) →
  (∀ f c, P (EvWriteFile f c)) →
  (∀ args r, P (EvRun ("manifest-tool" :: args) None r)) →
  (∀ text, P (EvLogError text)) →
  emits P (_finish_request_post_build conf env request_id arches).
Proof.
  intros Hset Hupd Hmk Hrm Hwr Hrun Hlog. unfold _finish_request_post_build.
  apply emits_bind; [by apply set_request_state_emits|]. intros _.
  apply emits_bind; [by apply create_and_push_emits|]. intros output.
  by apply update_request_emits.
Qed.

Lemma dispatch_trace bundles info request_id l h :
  dispatch bundles info request_id l h
  = (Done tt,
     map (fun arch =>
            EvApplyAsync bundles (pi_binary_image_resolved info) request_id
              (pi_from_index_resolved info)
              ("iib_" +:+ arch) ("iib_" +:+ arch)) l).
Proof.
  revert h. induction l as [|arch l IH]; intros h; [done|].
  cbn [dispatch map].
  rewrite (bind_run (emit _) _ _ tt [_] eq_refl).
  by rewrite IH.
Qed.

Lemma dispatched_jobs (f : string → event) l :
  (∀ arch, ∃ b i r fi q k, f arch = EvApplyAsync b i r fi q k) →
  dispatched (map f l) = map f l.
Proof.
  intros Hf. induction l as [|arch l IH]; [done|].
  cbn [map]. destruct (Hf arch) as (b & i & r & fi & q & k & ->).
  simpl. by rewrite IH.
Qed.

(** X13.  Once the preparation has returned, the orchestrator hands to the
    broker exactly one job per target architecture, in sorted order, each
    on the queue and with the routing key [iib_] followed by the
    architecture, with the resolved images; nothing else is ever
    dispatched, whatever the polling does.  When the preparation raises,
    the orchestrator raises the same error and dispatches nothing. *)
Theorem handle_add_request_dispatches fuel bundles binary_image request_id
    from_index add_arches h :
  (∀ info t0,
     _prepare_request_for_build conf env binary_image request_id from_index
       add_arches h = (Done info, t0) →
     dispatched (snd (handle_add_request conf env fuel bundles binary_image
                        request_id from_index add_arches h))
     = map (fun arch =>
              EvApplyAsync bundles (pi_binary_image_resolved info) request_id
                (pi_from_index_resolved info)
                ("iib_" +:+ arch) ("iib_" +:+ arch))
         (sorted (pi_arches info)))
  ∧ (∀ e t0,
       _prepare_request_for_build conf env binary_image request_id
         from_index add_arches h = (Raised e, t0) →
       handle_add_request conf env fuel bundles binary_image request_id
         from_index add_arches h = (Raised e, t0)
       ∧ dispatched t0 = []).
Proof.
  pose proof (prepare_inspects conf env binary_image request_id from_index
                add_arches h) as Hquiet.
  assert (Hnone : ∀ t, Forall only_inspects t → dispatched t = []).
  { intros t. apply (dispatched_none only_inspects).
    by intros b i r f q k []. }
  split.
  - intros info t0 Hprep. rewrite Hprep in Hquiet. cbn [snd] in Hquiet.
    unfold handle_add_request.
    rewrite (bind_run _ _ _ _ _ Hprep).
    rewrite (bind_run _ _ _ _ _
               (dispatch_trace bundles info request_id
                  (sorted (pi_arches info)) (h ++ t0))).
    set (jobs := map _ (sorted (pi_arches info))).
    set (h2 := (h ++ t0) ++ jobs).
    pose proof (poll_loop_post conf env fuel request_id (pi_arches info) h2)
      as [(obs & Hshape & _) _ _ _ _].
    pose proof (finish_emits (fun e => dispatched [e] = []) request_id
                  (pi_arches info)) as Hfin.
    unfold bind, _poll_request.
    destruct (_poll_request_loop conf env fuel request_id (pi_arches info) h2)
      as [[[|]|e|] tp]; cbn [fst snd negb] in *.
    + specialize (Hfin (fun _ _ _ => eq_refl) (fun _ _ _ => eq_refl)
                    (fun _ => eq_refl) (fun _ => eq_refl)
                    (fun _ _ => eq_refl) (fun _ _ => eq_refl)
                    (fun _ => eq_refl) (h2 ++ tp)).
      destruct (_finish_request_post_build conf env request_id
                  (pi_arches info) (h2 ++ tp)) as [ofin tf].
      unfold extend. cbn [fst snd] in *.
      rewrite !dispatched_app, (Hnone _ Hquiet).
      assert (dispatched tp = []) as ->.
      { rewrite Hshape. clear. induction obs as [|r obs IH]; [done|].
        exact IH. }
      assert (dispatched tf = []) as ->.
      { clear -Hfin. induction Hfin as [|e t He _ IH]; [done|].
        change (e :: t) with ([e] ++ t). by rewrite dispatched_app, He. }
      rewrite app_nil_r. cbn [app]. apply dispatched_jobs.
      intros arch. by eexists _, _, _, _, _, _.
    + unfold extend, log_error, emit. cbn [fst snd].
      rewrite !dispatched_app, (Hnone _ Hquiet).
      assert (dispatched tp = []) as ->.
      { rewrite Hshape. clear. induction obs as [|r obs IH]; [done|].
        exact IH. }
      cbn. rewrite app_nil_r. apply dispatched_jobs.
      intros arch. by eexists _, _, _, _, _, _.
    + unfold extend. cbn [fst snd].
      rewrite !dispatched_app, (Hnone _ Hquiet).
      assert (dispatched tp = []) as ->.
      { rewrite Hshape. clear. induction obs as [|r obs IH]; [done|].
        exact IH. }
      cbn. rewrite app_nil_r. apply dispatched_jobs.
      intros arch. by eexists _, _, _, _, _, _.
    + unfold extend. cbn [fst snd].
      rewrite !dispatched_app, (Hnone _ Hquiet).
      assert (dispatched tp = []) as ->.
      { rewrite Hshape. clear. induction obs as [|r obs IH]; [done|].
        exact IH. }
      cbn. rewrite app_nil_r. apply dispatched_jobs.
      intros arch. by eexists _, _, _, _, _, _.
  - intros e t0 Hprep. rewrite Hprep in Hquiet. cbn [snd] in Hquiet.
    split; [|by apply Hnone].
    unfold handle_add_request. by apply bind_Raised.
Qed.

End MoreOrchestrator.

Section Completion.

Variable conf : Config.
Variable env : Env.

Lemma run_cmd_Done_inv cmd cwd exc_msg h out t :
  _run_cmd conf env cmd cwd exc_msg h = (Done out, t) →
  returncode (os_subprocess_run env h cmd cwd) = 0
  ∧ t = [EvRun cmd cwd (os_subprocess_run env h cmd cwd)].
Proof.
  unfold _run_cmd, bind, subprocess_run, log_error, emit, raise, ret.
  case_bool_decide as Hrc.
  - destruct (split_colon _) as [[u p]|]; simpl; done.
  - simpl. by intros [= _ <-].
Qed.

(** When [_create_and_push_manifest_list] returns, [manifest-tool] was run
    and exited with the code 0. *)
Lemma create_and_push_Done request_id arches h out t :
  _create_and_push_manifest_list conf env request_id arches h = (Done out, t) →
  ∃ args r, EvRun ("manifest-tool" :: args) None r ∈ t ∧ returncode r = 0.
Proof.
  destruct (format (iib_image_push_template conf) (iib_registry conf)
              request_id None) as [e|output] eqn:Hout.
  { unfold _create_and_push_manifest_list. rewrite Hout. done. }
  rewrite (create_and_push_run conf env request_id arches h output Hout).
  cbn zeta.
  destruct (split_colon (iib_registry_credentials conf)) as [[u p]|];
    [|done].
  match goal with
  | |- context [_run_cmd conf env ?cmd ?cwd ?msg ?hist] =>
      destruct (_run_cmd conf env cmd cwd msg hist) as [[o|e|] tr] eqn:Hrun;
        [|done..];
        apply run_cmd_Done_inv in Hrun as [Hrc ->]
  end.
  cbn [fst snd]. intros [= _ <-].
  eexists _, _. split; [|exact Hrc]. repeat constructor.
Qed.

Lemma prepare_never_completes binary_image request_id from_index add_arches :
  emits (fun e => ¬ marks_complete e)
    (_prepare_request_for_build conf env binary_image request_id from_index
       add_arches).
Proof.
  assert (Hins : ∀ args, emits (fun e => ¬ marks_complete e)
                           (_skopeo_inspect conf env args false)).
  { intros args. unfold _skopeo_inspect. apply emits_bind.
    - apply run_cmd_emits; intros; by intros [].
    - intros out. destruct (json_loads env out);
        [apply emits_ret | apply emits_raise]. }
  assert (Hres : ∀ s, emits (fun e => ¬ marks_complete e)
                        (_get_resolved_image conf env s)).
  { intros s. unfold _get_resolved_image.
    apply emits_bind; [apply Hins|]. intros j.
    apply emits_bind; [apply emits_getitem|]. intros name.
    apply emits_bind; [apply emits_getitem|]. intros digest.
    apply emits_ret. }
  assert (Harch : ∀ s, emits (fun e => ¬ marks_complete e)
                         (_get_image_arches conf env s)).
  { intros s. unfold _get_image_arches.
    apply emits_bind; [apply Hins|]. intros j.
    apply emits_bind; [apply emits_getitem|]. intros media.
    case_bool_decide; [apply emits_raise|].
    apply emits_bind; [apply emits_getitem|]. intros ms. apply emits_ret. }
  unfold _prepare_request_for_build.
  apply emits_bind; [apply set_request_state_emits; intros; by intros []|].
  intros _.
  apply emits_bind; [apply Hres|]. intros bres.
  apply emits_bind; [apply Harch|]. intros supported.
  apply emits_bind.
  - destruct (truthy from_index) as [fi|]; [|apply emits_ret].
    apply emits_bind; [apply Hres|]. intros fres.
    apply emits_bind; [apply Harch|]. intros found. apply emits_ret.
  - intros [target fres].
    repeat case_bool_decide; try apply emits_raise.
    apply emits_bind; [|intros; apply emits_ret].
    apply update_request_emits. intros r. cbn [marks_complete].
    destruct (truthy fres); set_solver.
Qed.

Lemma Forall_not_Exists {A} (P : A → Prop) l :
  Forall (fun x => ¬ P x) l → ¬ Exists P l.
Proof. intros Hall Hex. by apply Forall_Exists_neg in Hall. Qed.


(** X14.  In every run of the orchestrator, an update of the request to
    the state [complete] is only sent after [manifest-tool] has been run
    and has exited with the code 0. *)
Theorem request_completed_only_after_push fuel bundles binary_image
    request_id from_index add_arches h :
  Exists marks_complete
    (snd (handle_add_request conf env fuel bundles binary_image request_id
            from_index add_arches h)) →
  ∃ args r,
    EvRun ("manifest-tool" :: args) None r
    ∈ snd (handle_add_request conf env fuel bundles binary_image request_id
             from_index add_arches h)
    ∧ returncode r = 0.
Proof.
  unfold handle_add_request.
  pose proof (prepare_never_completes binary_image request_id from_index
                add_arches h) as Hprep.
  apply Forall_not_Exists in Hprep.
  destruct (_prepare_request_for_build conf env binary_image request_id
              from_index add_arches h) as [[info|e|] t0] eqn:Eprep;
    cbn [snd] in Hprep.
  2: { rewrite (bind_Raised _ _ _ _ _ Eprep). done. }
  2: { rewrite (bind_OutOfFuel _ _ _ _ Eprep). done. }
  rewrite (bind_run _ _ _ _ _ Eprep).
  rewrite (bind_run _ _ _ _ _
             (dispatch_trace bundles info request_id
                (sorted (pi_arches info)) (h ++ t0))).
  set (jobs := map _ (sorted (pi_arches info))).
  assert (Hjobs : ¬ Exists marks_complete jobs).
  { subst jobs. intros Hex. apply Exists_exists in Hex as (e & He & Hc).
    apply list_elem_of_fmap in He as (arch & -> & _). done. }
  set (h2 := (h ++ t0) ++ jobs).
  pose proof (poll_loop_post conf env fuel request_id (pi_arches info) h2)
    as [(obs & Hshape & _) _ _ _ _].
  assert (Hpoll : ∀ l, ¬ Exists marks_complete
                         (poll_events (iib_poll_api_frequency conf)
                            request_id l)).
  { intros l. induction l as [|r l IH]; intros Hex;
      [by apply Exists_nil in Hex|].
    change (Exists marks_complete
              (EvSleep (iib_poll_api_frequency conf)
               :: EvGetRequest request_id r
               :: poll_events (iib_poll_api_frequency conf) request_id l))
      in Hex.
    apply Exists_cons in Hex as [[]|Hex].
    apply Exists_cons in Hex as [[]|Hex]. done. }
  unfold bind, _poll_request.
  destruct (_poll_request_loop conf env fuel request_id (pi_arches info) h2)
    as [[[|]|e|] tp]; cbn [fst snd negb] in *; subst tp.
  - unfold _finish_request_post_build, bind, set_request_state.
    destruct (api_set_request_state env _ request_id "in_progress"
                "Creating the manifest list") as [e|].
    { unfold extend. cbn [fst snd]. intros Hex. exfalso.
      split_exists Hex; try contradiction. by apply Hpoll in Hex. }
    set (h3 := _ ++ [EvSetRequestState _ _ _ None]).
    pose proof (create_and_push_emits conf env
                  (fun e => ¬ marks_complete e) request_id (pi_arches info)
                  (fun _ H => H) (fun _ H => H) (fun _ _ H => H)
                  (fun _ _ H => H) (fun _ H => H) h3) as Hclean.
    apply Forall_not_Exists in Hclean.
    destruct (_create_and_push_manifest_list conf env request_id
                (pi_arches info) h3) as [[out|e|] tc] eqn:Ecreate;
      cbn [fst snd] in *.
    + apply create_and_push_Done in Ecreate as (args & r & Hin & Hrc).
      intros _. exists args, r. split; [|exact Hrc].
      unfold extend. cbn [fst snd]. set_solver.
    + unfold extend. cbn [fst snd]. intros Hex. exfalso.
      split_exists Hex; try contradiction. by apply Hpoll in Hex.
    + unfold extend. cbn [fst snd]. intros Hex. exfalso.
      split_exists Hex; try contradiction. by apply Hpoll in Hex.
  - unfold extend, log_error, emit. cbn [fst snd]. intros Hex. exfalso.
    split_exists Hex; try contradiction. by apply Hpoll in Hex.
  - unfold extend. cbn [fst snd]. intros Hex. exfalso.
    split_exists Hex; try contradiction. by apply Hpoll in Hex.
  - unfold extend. cbn [fst snd]. intros Hex. exfalso.
    split_exists Hex; try contradiction. by apply Hpoll in Hex.
Qed.

(** X15.  When the API accepts the state update, the output pull
    specification can be formatted, the credentials have a colon and
    [manifest-tool] fails, [_finish_request_post_build] raises the
    [IIBError] that names the output pull specification; the temporary
    directory is removed and the request is never updated. *)
Theorem finish_push_failure request_id arches h output user password :
  api_set_request_state env h request_id "in_progress"
    "Creating the manifest list" = None →
  format (iib_image_push_template conf) (iib_registry conf) request_id None
    = inr output →
  split_colon (iib_registry_credentials conf) = Some (user, password) →
  (∀ h' args, returncode (os_subprocess_run env h' ("manifest-tool" :: args)
                            None) ≠ 0) →
  fst (_finish_request_post_build conf env request_id arches h)
  = Raised (IIBError ("Failed to push the manifest list to " +:+ output))
  ∧ created (snd (_finish_request_post_build conf env request_id arches h))
    = removed (snd (_finish_request_post_build conf env request_id arches h))
  ∧ length (created
              (snd (_finish_request_post_build conf env request_id arches h)))
    = 1%nat
  ∧ ∀ id p msg r,
      EvUpdateRequest id p msg r
      ∉ snd (_finish_request_post_build conf env request_id arches h).
Proof.
  intros Hset Hout Hsplit Hfail.
  unfold _finish_request_post_build.
  erewrite bind_run; cycle 1.
  { unfold set_request_state. rewrite Hset. reflexivity. }
  set (h1 := h ++ _).
  pose proof (create_and_push_run conf env request_id arches h1 output Hout)
    as Hrun. cbn zeta in Hrun. rewrite Hsplit in Hrun.
  rewrite (run_cmd_failed conf env _ _ _ _ user password (Hfail _ _) Hsplit)
    in Hrun.
  cbn [fst snd] in Hrun.
  rewrite (bind_Raised _ _ _ _ _ Hrun). unfold extend. cbn [fst snd].
  split; [done|]. split; [done|]. split; [done|].
  intros id p msg r Hin. cbn in Hin. set_solver.
Qed.

End Completion.

Lemma request_completed_only_after_push_witness :
  Exists marks_complete
    (snd (handle_add_request Scenario.conf
            (Scenario.steady_env (Scenario.in_progress ["amd64"; "s390x"]))
            1 ["quay.io/bundle:1"] "quay.io/opm:v1" 7 None
            (Some ["amd64"; "s390x"]) []))
  ∧ ∃ args r,
      EvRun ("manifest-tool" :: args) None r
      ∈ snd (handle_add_request Scenario.conf
               (Scenario.steady_env (Scenario.in_progress ["amd64"; "s390x"]))
               1 ["quay.io/bundle:1"] "quay.io/opm:v1" 7 None
               (Some ["amd64"; "s390x"]) [])
      ∧ returncode r = 0.
Proof.
  assert (Hex :
    Exists marks_complete
      (snd (handle_add_request Scenario.conf
              (Scenario.steady_env (Scenario.in_progress ["amd64"; "s390x"]))
              1 ["quay.io/bundle:1"] "quay.io/opm:v1" 7 None
              (Some ["amd64"; "s390x"]) []))).
  { apply Exists_exists.
    exists (EvUpdateRequest 7
              [("index_image", PStr "registry.example.com/iib-build:7");
               ("state", PStr "complete");
               ("state_reason", PStr "The request completed successfully")]
              "Failed setting the index image on the request" None).
    split; [vm_compute; repeat constructor|].
    cbn. repeat constructor. }
  split; [exact Hex|].
  exact (request_completed_only_after_push Scenario.conf
           (Scenario.steady_env (Scenario.in_progress ["amd64"; "s390x"]))
           1 ["quay.io/bundle:1"] "quay.io/opm:v1" 7 None
           (Some ["amd64"; "s390x"]) [] Hex).
Defined.

Lemma finish_push_failure_witness :
  api_set_request_state (Scenario.failing_env "denied") [] 7 "in_progress"
    "Creating the manifest list" = None
  ∧ format (iib_image_push_template Scenario.conf)
      (iib_registry Scenario.conf) 7 None
    = inr "registry.example.com/iib-build:7"
  ∧ split_colon (iib_registry_credentials Scenario.conf)
    = Some ("iib", "s3cret")
  ∧ (∀ h' args,
       returncode (os_subprocess_run (Scenario.failing_env "denied") h'
                     ("manifest-tool" :: args) None) ≠ 0)
  ∧ fst (_finish_request_post_build Scenario.conf
           (Scenario.failing_env "denied") 7 {[ "amd64" ]} [])
    = Raised (IIBError
        "Failed to push the manifest list to registry.example.com/iib-build:7").
Proof.
  assert (Hfail : ∀ h' args,
    returncode (os_subprocess_run (Scenario.failing_env "denied") h'
                  ("manifest-tool" :: args) None) ≠ 0) by discriminate.
  split; [reflexivity|]. split; [reflexivity|]. split; [reflexivity|].
  split; [exact Hfail|].
  exact (proj1 (finish_push_failure Scenario.conf
                  (Scenario.failing_env "denied") 7 {[ "amd64" ]} []
                  "registry.example.com/iib-build:7" "iib" "s3cret"
                  eq_refl eq_refl eq_refl Hfail)).
Defined.

(** ** More on [opm_index_add] *)

Lemma ends_with_update l e :
  last l = Some e → is_update e →
  ∃ t' e', l = t' ++ [e'] ∧ is_update e'.
Proof.
  intros Hlast Hup. apply last_Some in Hlast as [t' ->]. by exists t', e.
Qed.

Section MoreWorker.

Variable conf : Config.
Variable env : Env.

(** The runs of the worker, one by one: a request is only updated at the
    end of a run whose commands all succeeded, and a temporary directory
    that was created has been removed. *)
Lemma opm_index_add_runs bundles binary_image request_id from_index h
    (Q : outcome unit * list event → Prop) :
  (∀ o t,
     (Exists is_update t → Forall succeeded t
                           ∧ ∃ t' e, t = t' ++ [e] ∧ is_update e) →
     created t = removed t →
     (length (created t) ≤ 1)%nat →
     Q (o, t)) →
  Q (opm_index_add conf env bundles binary_image request_id from_index h).
Proof.
  intros HQ.
  destruct (format_with_arch (iib_arch_image_push_template conf)
              (iib_registry conf) request_id (iib_arch conf)) as [dest Hdest].
  unfold opm_index_add, _push_arch_image, _get_external_arch_pull_spec.
  cbn [str_or]. rewrite Hdest.
  unfold _cleanup, _build_image,
    _fix_opm_path, with_temporary_directory, finally,
    _run_cmd, update_request,
    set_request_state, get_request, subprocess_run, log_error, emit, bind,
    lift, ret, raise.
  repeat (case_match; simplify_eq; cbn [fst snd app]).
  all: cbn [app] in *; exit_codes; apply HQ;
         [| cbn [created removed app]; reflexivity
          | cbn [created length app]; lia].
  all: intros Hex.
  all: first
         [ exfalso; split_updates Hex; fail
         | split; [repeat constructor; cbn [succeeded]; done|];
           eapply ends_with_update; [reflexivity | exact I] ].
Qed.

(** X16.  In every run of the worker, the request is only updated, to
    report the architecture, when every command that was run has exited
    with the code 0; the update is then the last event of the run. *)
Theorem opm_index_add_reports_after_success bundles binary_image request_id
    from_index h :
  Exists is_update
    (snd (opm_index_add conf env bundles binary_image request_id from_index h))
  → Forall succeeded
      (snd (opm_index_add conf env bundles binary_image request_id
              from_index h))
    ∧ ∃ t' e,
        snd (opm_index_add conf env bundles binary_image request_id
               from_index h) = t' ++ [e]
        ∧ is_update e.
Proof.
  apply (opm_index_add_runs bundles binary_image request_id from_index h
           (fun r => Exists is_update (snd r) →
                     Forall succeeded (snd r)
                     ∧ ∃ t' e, snd r = t' ++ [e] ∧ is_update e)).
  intros o t Hup _ _. exact Hup.
Qed.

(** X17.  In every run of the worker, whatever fails, the temporary
    directories that were created are exactly those that were removed, and
    there is at most one. *)
Theorem opm_index_add_releases_directory bundles binary_image request_id
    from_index h :
  created (snd (opm_index_add conf env bundles binary_image request_id
                  from_index h))
  = removed (snd (opm_index_add conf env bundles binary_image request_id
                    from_index h))
  ∧ (length (created (snd (opm_index_add conf env bundles binary_image
                             request_id from_index h))) ≤ 1)%nat.
Proof.
  apply (opm_index_add_runs bundles binary_image request_id from_index h
           (fun r => created (snd r) = removed (snd r)
                     ∧ (length (created (snd r)) ≤ 1)%nat)).
  intros o t _ Hsame Hone. by split.
Qed.

(** X18.  When the request is not failed and the removal of the local
    images fails, with credentials that have a colon, the worker raises the
    [IIBError] of the cleanup right after logging the command: it creates
    no directory, builds nothing and does not touch the request. *)
Theorem opm_index_add_cleanup_failure bundles binary_image request_id
    from_index h r user password :
  api_get_request env h request_id = inr r →
  state r ≠ "failed" →
  split_colon (iib_registry_credentials conf) = Some (user, password) →
  returncode (os_subprocess_run env (h ++ [EvGetRequest request_id (inr r)])
                ["podman"; "rmi"; "--all"; "--force"] None) ≠ 0 →
  opm_index_add conf env bundles binary_image request_id from_index h
  = (Raised (IIBError "Failed to remove the existing container images"),
     [EvGetRequest request_id (inr r);
      EvRun ["podman"; "rmi"; "--all"; "--force"] None
        (os_subprocess_run env (h ++ [EvGetRequest request_id (inr r)])
           ["podman"; "rmi"; "--all"; "--force"] None);
      EvLogError
        (failure_log_text
           (sanitize (iib_registry_credentials conf) password
              ["podman"; "rmi"; "--all"; "--force"])
           (stderr
              (os_subprocess_run env
                 (h ++ [EvGetRequest request_id (inr r)])
                 ["podman"; "rmi"; "--all"; "--force"] None)))]).
Proof.
  intros Hget Hstate Hsplit Hrc. unfold opm_index_add.
  erewrite bind_run; cycle 1.
  { unfold get_request. rewrite Hget. reflexivity. }
  rewrite bool_decide_false by done.
  erewrite bind_Raised; cycle 1.
  { unfold _cleanup. apply bind_Raised.
    exact (run_cmd_failed conf env _ _ _ _ user password Hrc Hsplit). }
  reflexivity.
Qed.

End MoreWorker.

Lemma opm_index_add_reports_after_success_witness :
  Exists is_update
    (snd (opm_index_add Scenario.conf (Scenario.steady_env Scenario.complete)
            ["quay.io/bundle:1"] "quay.io/opm@sha256:b1" 7 None []))
  ∧ Forall succeeded
      (snd (opm_index_add Scenario.conf
              (Scenario.steady_env Scenario.complete)
              ["quay.io/bundle:1"] "quay.io/opm@sha256:b1" 7 None [])).
Proof.
  assert (Hex : Exists is_update
            (snd (opm_index_add Scenario.conf
                    (Scenario.steady_env Scenario.complete)
                    ["quay.io/bundle:1"] "quay.io/opm@sha256:b1" 7 None []))).
  { vm_compute.
    repeat first [apply Exists_cons_hd; exact I | apply Exists_cons_tl]. }
  split; [exact Hex|].
  exact (proj1 (opm_index_add_reports_after_success Scenario.conf
                  (Scenario.steady_env Scenario.complete)
                  ["quay.io/bundle:1"] "quay.io/opm@sha256:b1" 7 None []
                  Hex)).
Defined.

Lemma opm_index_add_cleanup_failure_witness :
  api_get_request (Scenario.failing_env "denied") [] 7
  = inr (Scenario.in_progress [])
  ∧ state (Scenario.in_progress []) ≠ "failed"
  ∧ split_colon (iib_registry_credentials Scenario.conf)
    = Some ("iib", "s3cret")
  ∧ returncode
      (os_subprocess_run (Scenario.failing_env "denied")
         ([] ++ [EvGetRequest 7 (inr (Scenario.in_progress []))])
         ["podman"; "rmi"; "--all"; "--force"] None) ≠ 0
  ∧ fst (opm_index_add Scenario.conf (Scenario.failing_env "denied")
           ["quay.io/bundle:1"] "quay.io/opm@sha256:b1" 7 None [])
    = Raised (IIBError "Failed to remove the existing container images").
Proof.
  assert (Hstate : state (Scenario.in_progress []) ≠ "failed")
    by discriminate.
  assert (Hrc : returncode
                  (os_subprocess_run (Scenario.failing_env "denied")
                     ([] ++ [EvGetRequest 7 (inr (Scenario.in_progress []))])
                     ["podman"; "rmi"; "--all"; "--force"] None) ≠ 0)
    by discriminate.
  split; [reflexivity|]. split; [exact Hstate|]. split; [reflexivity|].
  split; [exact Hrc|].
  exact (f_equal fst
           (opm_index_add_cleanup_failure Scenario.conf
              (Scenario.failing_env "denied") ["quay.io/bundle:1"]
              "quay.io/opm@sha256:b1" 7 None [] (Scenario.in_progress [])
              "iib" "s3cret" eq_refl Hstate eq_refl Hrc)).
Defined.

(** ** More on [_poll_request] *)

Section MorePoll.

Variable conf : Config.
Variable env : Env.

(** X19.  The polling loop raises exactly the error that a read of the
    request raised: it raises [e] if and only if some read of its run was
    answered by the error [e], and that read is then the last event of the
    run, so the loop neither retries nor swallows an error of the API. *)
Theorem poll_request_api_error fuel request_id target h e :
  (fst (_poll_request conf env fuel request_id target h) = Raised e
   ↔ EvGetRequest request_id (inl e)
     ∈ snd (_poll_request conf env fuel request_id target h))
  ∧ (fst (_poll_request conf env fuel request_id target h) = Raised e →
     last (snd (_poll_request conf env fuel request_id target h))
     = Some (EvGetRequest request_id (inl e))).
Proof.
  unfold _poll_request. revert target h.
  induction fuel as [|fuel IH]; intros target h.
  { cbn. split; [split; [done|]|done]. intros Hin. by apply elem_of_nil in Hin. }
  rewrite poll_loop_step. cbn zeta.
  destruct (api_get_request env _ request_id) as [e'|r].
  { cbn [fst snd]. split; [split|].
    - intros [= ->]. set_solver.
    - intros Hin. apply elem_of_cons in Hin as [[=]|Hin].
      apply elem_of_cons in Hin as [[= ->]|Hin]; [done|].
      by apply elem_of_nil in Hin.
    - by intros [= ->]. }
  case_bool_decide.
  { cbn [fst snd]. split; [split; [done|]|done].
    intros Hin. apply elem_of_cons in Hin as [[=]|Hin].
    apply elem_of_cons in Hin as [[=]|Hin]. by apply elem_of_nil in Hin. }
  case_bool_decide.
  { cbn [fst snd]. split; [split; [done|]|done].
    intros Hin. apply elem_of_cons in Hin as [[=]|Hin].
    apply elem_of_cons in Hin as [[=]|Hin]. by apply elem_of_nil in Hin. }
  unfold extend. cbn [fst snd].
  match goal with
  | |- context [_poll_request_loop conf env fuel request_id ?rem ?hh] =>
      destruct (IH rem hh) as [[IH1 IH2] IH3]
  end.
  split; [split|].
  - intros Ho. apply elem_of_app. right. by apply IH1.
  - intros Hin. apply elem_of_app in Hin as [Hin|Hin]; [|by apply IH2].
    apply elem_of_cons in Hin as [[=]|Hin].
    apply elem_of_cons in Hin as [[=]|Hin]. by apply elem_of_nil in Hin.
  - intros Ho. specialize (IH3 Ho).
    apply last_Some in IH3 as [t' Ht']. rewrite Ht'.
    rewrite app_assoc. apply last_snoc.
Qed.

End MorePoll.

(** Polling an API that is down: one sleep, one read, and the error. *)
Example poll_request_api_down :
  _poll_request Scenario.conf Scenario.down_env 3 7 {[ "amd64" ]} []
  = (Raised (IIBError "API is down"),
     [EvSleep 5; EvGetRequest 7 (inl (IIBError "API is down"))]).
Proof. reflexivity. Qed.

(** ** The pull specifications of the architecture images *)

Lemma str_or_same x : str_or (Some x) x = x.
Proof. by destruct x. Qed.

Lemma format_without_arch t registry request_id :
  (FieldArch ∈ t → format t registry request_id None = inl (KeyError "arch"))
  ∧ (FieldArch ∉ t → ∃ s, format t registry request_id None = inr s).
Proof.
  assert (Hraised : ∀ e, format t registry request_id None = inl e →
                         e = KeyError "arch" ∧ FieldArch ∈ t).
  { induction t as [|seg t IH]; [done|]. cbn [format].
    destruct (format t registry request_id None) as [e'|rest].
    - intros e [= <-]. destruct (IH e' eq_refl) as [-> Hin].
      split; [done|]. by apply elem_of_cons; right.
    - destruct seg; intros e [= <-]. split; [done|]. by apply elem_of_cons; left. }
  assert (Hdone : ∀ s, format t registry request_id None = inr s →
                       FieldArch ∉ t).
  { induction t as [|seg t IH]; [intros s _ Hin; by apply elem_of_nil in Hin|].
    cbn [format].
    destruct (format t registry request_id None) as [e'|rest]; [done|].
    intros s Hs. apply not_elem_of_cons. split; [|by eapply IH].
    by destruct seg. }
  destruct (format t registry request_id None) as [e|s].
  - destruct (Hraised e eq_refl) as [-> Hin]. split; [done|]. by intros [].
  - split; [|by eexists]. intros Hin. by destruct (Hdone s eq_refl).
Qed.

Section PullSpecs.

Variable conf : Config.
Variable env : Env.


(** X21.  The worker pushes its local image to the pull specification
    that the manifest list names for the architecture of the worker, behind
    [docker://], with the configured credentials.  When the push exits with
    the code 0 nothing else happens; when it fails the error names that
    destination and the architecture, and the credentials are redacted in
    the logged command. *)
Theorem push_arch_image_destination request_id h :
  let destination :=
    "docker://" +:+ external_arch_pull_spec conf request_id (iib_arch conf) in
  let cmd := ["podman"; "push"; "-q"; _get_local_pull_spec request_id;
              destination; "--creds"; iib_registry_credentials conf] in
  let r := os_subprocess_run env h cmd None in
  (returncode r = 0 →
   _push_arch_image conf env request_id h = (Done tt, [EvRun cmd None r]))
  ∧ (returncode r ≠ 0 → ∀ user password,
     split_colon (iib_registry_credentials conf) = Some (user, password) →
     ∃ logged,
       _push_arch_image conf env request_id h
       = (Raised (IIBError ("Failed to push the index image to " +:+
                            destination +:+ " on the arch " +:+
                            iib_arch conf)),
          [EvRun cmd None r;
           EvLogError (failure_log_text logged (stderr r))])
       ∧ length logged = length cmd
       ∧ last logged = Some redaction_marker).
Proof.
  intros destination cmd r. unfold _push_arch_image.
  assert (Hdest : ∀ h', _get_external_arch_pull_spec conf request_id None
                          true h' = (Done destination, [])).
  { intros h'. subst destination.
    unfold _get_external_arch_pull_spec, external_arch_pull_spec.
    rewrite str_or_same. cbn [str_or].
    destruct (format_with_arch (iib_arch_image_push_template conf)
                (iib_registry conf) request_id (iib_arch conf)) as [s ->].
    unfold lift. by rewrite ret_bind. }
  rewrite (bind_run _ _ _ _ _ (Hdest h)). rewrite app_nil_r.
  unfold extend. cbn [app fst snd]. split.
  - intros Hrc.
    rewrite (bind_run _ _ _ _ _
               (run_cmd_ok conf env cmd None _ h Hrc)).
    unfold extend, ret. cbn. done.
  - intros Hrc user password Hsplit.
    exists (sanitize (iib_registry_credentials conf) password cmd).
    split; [|split].
    + pose proof (run_cmd_failed conf env cmd None
                    (Some ("Failed to push the index image to " +:+
                           destination +:+ " on the arch " +:+
                           _get_arch conf)) h user password Hrc Hsplit)
        as Hrun.
      rewrite (bind_Raised _ _ _ _ _ Hrun).
      unfold _get_arch. destruct destination; reflexivity.
    + unfold sanitize. by rewrite length_map.
    + exact (sanitize_last (iib_registry_credentials conf) password
               ["podman"; "push"; "-q"; _get_local_pull_spec request_id;
                destination] "--creds").
Qed.

(** X22.  The template of the manifest list is formatted without an
    architecture: when it has an architecture field,
    [_create_and_push_manifest_list] raises [KeyError] before doing
    anything, and [_finish_request_post_build] fails right after the state
    update; when it has none, the formatting succeeds and the directory of
    the descriptor is created. *)
Theorem manifest_list_template_arch_field request_id arches h :
  (FieldArch ∈ iib_image_push_template conf →
   _create_and_push_manifest_list conf env request_id arches h
   = (Raised (KeyError "arch"), [])
   ∧ fst (_finish_request_post_build conf env request_id arches h)
     ≠ Done tt
   ∧ snd (_finish_request_post_build conf env request_id arches h)
     = [EvSetRequestState request_id "in_progress"
          "Creating the manifest list"
          (api_set_request_state env h request_id "in_progress"
             "Creating the manifest list")])
  ∧ (FieldArch ∉ iib_image_push_template conf →
     ∃ rest,
       snd (_create_and_push_manifest_list conf env request_id arches h)
       = EvMkdtemp (os_mkdtemp env h) :: rest).
Proof.
  destruct (format_without_arch (iib_image_push_template conf)
              (iib_registry conf) request_id) as [Hin Hout].
  split.
  - intros Hfield. specialize (Hin Hfield).
    assert (Hraise : ∀ h', _create_and_push_manifest_list conf env request_id
                             arches h' = (Raised (KeyError "arch"), [])).
    { intros h'. unfold _create_and_push_manifest_list. rewrite Hin.
      reflexivity. }
    split; [apply Hraise|].
    unfold _finish_request_post_build.
    destruct (api_set_request_state env h request_id "in_progress"
                "Creating the manifest list") as [e|] eqn:Hset.
    + erewrite bind_Raised; cycle 1.
      { unfold set_request_state. rewrite Hset. reflexivity. }
      by split.
    + erewrite bind_run; cycle 1.
      { unfold set_request_state. rewrite Hset. reflexivity. }
      rewrite (bind_Raised _ _ _ _ _ (Hraise _)). by split.
  - intros Hfield. destruct (Hout Hfield) as [output Houtput].
    rewrite (create_and_push_run conf env request_id arches h output Houtput).
    cbn [snd]. by eexists.
Qed.

End PullSpecs.

(** A refused push of the image of request 7. *)
Example push_arch_image_refused :
  _push_arch_image Scenario.conf (Scenario.failing_env "denied") 7 []
  = (Raised (IIBError
       "Failed to push the index image to docker://registry.example.com/iib-build:7-amd64 on the arch amd64"),
     [EvRun ["podman"; "push"; "-q"; "operator-registry-index:7";
             "docker://registry.example.com/iib-build:7-amd64"; "--creds";
             "iib:s3cret"] None
        {| returncode := 1; stdout := ""; stderr := "denied" |};
      EvLogError
        (failure_log_text
           ["podman"; "push"; "-q"; "operator-registry-index:7";
            "docker://registry.example.com/iib-build:7-amd64"; "--creds";
            "********"] "denied")]).
Proof. vm_compute. reflexivity. Qed.

(** A manifest list template with an architecture field. *)
Example manifest_list_template_with_arch :
  FieldArch ∈ iib_image_push_template Scenario.conf_arch_in_list_template
  ∧ _finish_request_post_build Scenario.conf_arch_in_list_template
      (Scenario.steady_env Scenario.complete) 7 {[ "amd64" ]} []
    = (Raised (KeyError "arch"),
       [EvSetRequestState 7 "in_progress" "Creating the manifest list" None]).
Proof. split; [repeat constructor | reflexivity]. Qed.

(** ** The rewriting of the Dockerfile *)

Lemma string_app_assoc (a b c : string) : (a +:+ b) +:+ c = a +:+ (b +:+ c).
Proof.
  induction a as [|x a IH]; [done|].
  change (String x ((a +:+ b) +:+ c) = String x (a +:+ (b +:+ c))).
  by rewrite IH.
Qed.

Lemma string_length_app (a b : string) :
  String.length (a +:+ b) = (String.length a + String.length b)%nat.
Proof.
  induction a as [|x a IH]; [done|].
  change (S (String.length (a +:+ b))
          = S (String.length a + String.length b)).
  by rewrite IH.
Qed.

Lemma prefix_length a s :
  String.prefix a s = true → (String.length a ≤ String.length s)%nat.
Proof.
  revert a. induction s as [|c s IH]; intros [|x a]; cbn [String.length];
    try (intros; lia); [done|].
  change (String.prefix (String x a) (String c s))
    with (if ascii_dec x c then String.prefix a s else false).
  destruct (ascii_dec x c); [|done]. intros Hp. specialize (IH _ Hp). lia.
Qed.

Lemma prefix_app_same a s : String.prefix a (a +:+ s) = true.
Proof.
  induction a as [|x a IH]; [by destruct s|].
  change (String.prefix (String x a) (String x a +:+ s))
    with (if ascii_dec x x then String.prefix a (a +:+ s) else false).
  by destruct (ascii_dec x x).
Qed.

Lemma prefix_app_short a x y :
  String.prefix a (x +:+ y) = true →
  (String.length a ≤ String.length x)%nat →
  String.prefix a x = true.
Proof.
  revert a. induction x as [|c x IH]; intros [|b a]; cbn [String.length];
    try done; try (intros; lia).
  change (String.prefix (String b a) (String c x +:+ y))
    with (if ascii_dec b c then String.prefix a (x +:+ y) else false).
  change (String.prefix (String b a) (String c x))
    with (if ascii_dec b c then String.prefix a x else false).
  destruct (ascii_dec b c); [|done]. intros Hp Hlen. apply IH; [done|lia].
Qed.

Section Replace.

Variables old new : string.

Lemma replace_absent s :
  occurs old s = false → replace_from O old new s = s.
Proof.
  induction s as [|c s IH]; [done|]. cbn [occurs replace_from].
  intros [Hp Ho]%orb_false_elim. rewrite Hp. by rewrite IH.
Qed.

Lemma replace_skip x s :
  replace_from (String.length x) old new (x +:+ s) = replace_from O old new s.
Proof. induction x as [|c x IH]; [done|]. exact IH. Qed.

Lemma replace_length k s :
  (String.length new ≤ String.length old)%nat →
  (String.length (replace_from k old new s) + k `min` String.length s
   ≤ String.length s)%nat.
Proof.
  intros Hnew. revert k. induction s as [|c s IH]; intros k; [simpl; lia|].
  cbn [replace_from String.length]. destruct k as [|k].
  - destruct (String.prefix old (String c s)) eqn:Hp.
    + apply prefix_length in Hp. cbn [String.length] in Hp.
      rewrite string_length_app.
      specialize (IH (String.length old - 1)%nat). lia.
    + specialize (IH O). cbn [String.length]. lia.
  - specialize (IH k). lia.
Qed.

End Replace.

(** X23.  The loop of [_fix_opm_path] leaves a line without
    [/build/bin/opm] as it is; in a line whose first occurrence of
    [/build/bin/opm] follows [pre], it keeps [pre], writes [/bin/opm] and
    goes on with the rest of the line; a line never gets longer. *)
Theorem fix_opm_line_spec :
  (∀ line, occurs "/build/bin/opm" line = false → fix_opm_line line = line)
  ∧ (∀ pre post,
       occurs "/build/bin/opm" (pre +:+ "/build/bin/op") = false →
       fix_opm_line (pre +:+ "/build/bin/opm" +:+ post)
       = pre +:+ "/bin/opm" +:+ fix_opm_line post)
  ∧ (∀ line, (String.length (fix_opm_line line) ≤ String.length line)%nat).
Proof.
  unfold fix_opm_line. split; [|split].
  - intros line. apply replace_absent.
  - intros pre post. induction pre as [|c pre IH]; intros Hocc.
    + change ("" +:+ "/build/bin/opm" +:+ post)
        with (String "/" ("build/bin/opm" +:+ post)).
      cbn [replace_from].
      change (String "/" ("build/bin/opm" +:+ post))
        with ("/build/bin/opm" +:+ post).
      rewrite prefix_app_same.
      change (String.length "/build/bin/opm" - 1)%nat
        with (String.length "build/bin/opm").
      by rewrite replace_skip.
    + change (String c pre +:+ "/build/bin/op")
        with (String c (pre +:+ "/build/bin/op")) in Hocc.
      cbn [occurs] in Hocc. apply orb_false_elim in Hocc as [Hp Ho].
      change (String c pre +:+ "/build/bin/opm" +:+ post)
        with (String c (pre +:+ "/build/bin/opm" +:+ post)).
      cbn [replace_from].
      destruct (String.prefix "/build/bin/opm"
                  (String c (pre +:+ "/build/bin/opm" +:+ post))) eqn:Hfull.
      * exfalso.
        change (String c (pre +:+ "/build/bin/opm" +:+ post))
          with (String c pre +:+ ("/build/bin/op" +:+ ("m" +:+ post)))
          in Hfull.
        rewrite <- string_app_assoc in Hfull.
        apply prefix_app_short in Hfull.
        -- change (String c pre +:+ "/build/bin/op")
             with (String c (pre +:+ "/build/bin/op")) in Hfull.
           congruence.
        -- rewrite string_length_app. cbn [String.length]. lia.
      * rewrite (IH Ho). reflexivity.
  - intros line.
    pose proof (replace_length "/build/bin/opm" "/bin/opm" O line) as Hlen.
    cbn [String.length] in Hlen. lia.
Qed.

(** The rewriting of one line of a generated Dockerfile. *)
Example fix_opm_line_entrypoint :
  fix_opm_line "ENTRYPOINT [/build/bin/opm, registry, serve]"
  = "ENTRYPOINT [/bin/opm, registry, serve]".
Proof. reflexivity. Qed.
